(** * sosw: configuration resolver and ecology (health) manager

    A shallow embedding of [sosw/managers/ecology.py] and
    [sosw/components/config.py], and the properties of the two modules.

    Conventions of the embedding.
    - Python [int] samples, thresholds and counters are [Z]; a metric sample
      that is a Python [float] is outside the model.
    - A Python [str] is a [string] whose characters are the code points
      below 256, the character of code [n] being [ascii_of_nat n]; text
      with a code point of 256 or more is outside the model.
    - A Python [dict] read as a map is a [gmap]; a [dict] that is only
      iterated in insertion order (the [health_metrics] of a labourer, the
      rows of a query) is a list.
    - A call that may raise returns a [result]; a method that mutates [self]
      is a function from the state to a [result] and the state it leaves
      behind, the state being kept also when the call raises.
    - External services (CloudWatch, the TaskManager, SSM, the JSON decoder)
      are parameters; calls into CloudWatch and the TaskManager are recorded
      in a trace so that the number of external calls can be counted. *)

From Stdlib Require Import ZArith Ascii String.
From stdpp Require Import base numbers option list sorting gmap strings.

Local Open Scope string_scope.
Local Open Scope list_scope.
Local Open Scope Z_scope.

#[local] Set Warnings "-register-all".

(** ** Exceptions and results *)

Inductive exn : Type :=
  | ValueError
  | TypeError
  | RuntimeError
  | AssertionError
  | IndexError
  | KeyError
  | JSONDecodeError
  | ClientError.

Inductive result (A : Type) : Type :=
  | Ok (a : A)
  | Raise (e : exn).
Arguments Ok {A} a.
Arguments Raise {A} e.

Definition is_ok {A} (r : result A) : bool :=
  match r with Ok _ => true | Raise _ => false end.

(** ** Health metrics and labourers *)

(** [feeling_comparison_operator]: the six rich comparisons of the [operator]
    module that a metric may name. *)
Inductive comparison_operator : Type := Gt | Ge | Lt | Le | Eq | Ne.

(** [getattr(operator, name)(a, b)] *)
Definition op (o : comparison_operator) (a b : Z) : bool :=
  match o with
  | Gt => b <? a
  | Ge => b <=? a
  | Lt => a <? b
  | Le => a <=? b
  | Eq => a =? b
  | Ne => negb (a =? b)
  end.

(** A health metric of a labourer: the query sent to CloudWatch, the map
    from eco status to threshold and the comparison. *)
Record HealthMetric : Type := {
  details : list (string * string);
  feelings : gmap Z Z;
  feeling_comparison_operator : comparison_operator
}.

Module Labourer.

(** What the manager reads of a [sosw.labourer.Labourer]: its [id] and the
    [health_metrics] attribute, which may be missing (the source reads it
    with [getattr(labourer, 'health_metrics', dict())]). *)
Record t : Type := {
  id : string;
  health_metrics : option (list (string * HealthMetric))
}.

End Labourer.

(** ** The ecology manager *)

Module EcologyManager.

(** [ECO_STATUSES] *)
Definition ECO_STATUSES : list (Z * string) :=
  [(0, "Bad"); (1, "Poor"); (2, "Moderate"); (3, "Good"); (4, "High")].

(** The [eco_statuses] property. *)
Definition eco_statuses : list Z := map fst ECO_STATUSES.

(** [max(map(lambda x: x[0], ECO_STATUSES))]; the tuple is not empty, so the
    seed of the fold is never the answer. *)
Definition max_eco_status : Z :=
  match eco_statuses with
  | [] => 0
  | x :: xs => foldl Z.max x xs
  end.

(** The order of [sorted(..., reverse=True)] on integer keys. *)
Definition reverse_le (a b : Z) : Prop := b ≤ a.

#[global] Instance reverse_le_dec : RelDecision reverse_le.
Proof. intros a b. unfold reverse_le. apply _. Defined.

(** [sorted(metric['feelings'].keys(), reverse=True)] *)
Definition sorted_keys_reverse (f : gmap Z Z) : list Z :=
  merge_sort reverse_le (map fst (map_to_list f)).

(** [OrderedDict([(key, metric['feelings'][key]) for key in sorted(...)])] *)
Definition ordered_feelings (f : gmap Z Z) : list (Z * Z) :=
  omap (λ key, pair key <$> f !! key) (sorted_keys_reverse f).

(** The loop of [get_health] over [feelings.items()], from [last_target]. *)
Fixpoint get_health_loop (o : comparison_operator) (value last_target : Z)
    (items : list (Z * Z)) : result Z :=
  match items with
  | [] => Ok 0
  | (health, target) :: rest =>
      if op o target last_target then Raise ValueError
      else if op o value target then Ok health
      else get_health_loop o value target rest
  end.

(** [EcologyManager.get_health] *)
Definition get_health (value : Z) (metric : HealthMetric) : result Z :=
  get_health_loop (feeling_comparison_operator metric) value 0
    (ordered_feelings (feelings metric)).

(** *** External collaborators *)

(** A call that leaves the process. *)
Inductive call : Type :=
  | GetMetricStatistics (kwargs : list (string * string))
  | GetCountOfRunningTasks (labourer_id : string)
  | GetAverageLabourerDuration (labourer_id : string).

(** The CloudWatch client and the TaskManager answer from outside the
    process: an answer may depend on everything that was asked before. The
    answer of CloudWatch is taken to be the numeric sample that [get_health]
    compares with the thresholds; an answer that is not a number, such as a
    whole response [dict], and a client call that raises are outside the
    model. *)
Record CloudWatchClient : Type := {
  get_metric_statistics : list call → list (string * string) → Z
}.

Record TaskManager : Type := {
  get_count_of_running_tasks_for_labourer : list call → Labourer.t → Z;
  get_average_labourer_duration : list call → Labourer.t → Z
}.

(** The attributes of an [EcologyManager]. [cloudwatch_client] is installed
    by the [Processor] base class. *)
Record t : Type := {
  running_tasks : gmap string Z;
  health_metrics : option (gmap string Z);
  task_client : option TaskManager;
  cloudwatch_client : CloudWatchClient
}.

(** The manager together with the trace of external calls made so far. *)
Record state : Type := {
  self : t;
  trace : list call
}.

(** The class attributes: [running_tasks = defaultdict(int)],
    [health_metrics = None], [task_client = None]. *)
Definition new_manager (cw : CloudWatchClient) : t :=
  {| running_tasks := ∅; health_metrics := None; task_client := None;
     cloudwatch_client := cw |}.

Definition initial (cw : CloudWatchClient) : state :=
  {| self := new_manager cw; trace := [] |}.

(** *** Methods as state transformers that may raise *)

Definition M (A : Type) : Type := state → result A * state.

#[global] Instance M_ret : MRet M := λ A a s, (Ok a, s).
#[global] Instance M_bind : MBind M := λ A B k m s,
  match m s with
  | (Ok a, s') => k a s'
  | (Raise e, s') => (Raise e, s')
  end.

Definition raise {A} (e : exn) : M A := λ s, (Raise e, s).
Definition get_self : M t := λ s, (Ok (self s), s).
Definition set_self (f : t → t) : M unit :=
  λ s, (Ok (), {| self := f (self s); trace := trace s |}).
Definition lift {A} (r : result A) : M A := λ s, (r, s).

(** An external call: the answer is computed from the trace so far and the
    call is appended to the trace. *)
Definition external {A} (c : call) (answer : list call → A) : M A :=
  λ s, (Ok (answer (trace s)), {| self := self s; trace := trace s ++ [c] |}).

Definition set_running_tasks (rt : gmap string Z) (e : t) : t :=
  {| running_tasks := rt; health_metrics := health_metrics e;
     task_client := task_client e; cloudwatch_client := cloudwatch_client e |}.
Definition set_health_metrics (hm : option (gmap string Z)) (e : t) : t :=
  {| running_tasks := running_tasks e; health_metrics := hm;
     task_client := task_client e; cloudwatch_client := cloudwatch_client e |}.
Definition set_task_client (tc : option TaskManager) (e : t) : t :=
  {| running_tasks := running_tasks e; health_metrics := health_metrics e;
     task_client := tc; cloudwatch_client := cloudwatch_client e |}.

Section Manager.

(** [sosw.components.helpers.make_hash], the content hash of a mapping. *)
Variable make_hash : list (string * string) → string.

(** [EcologyManager.register_task_manager] *)
Definition register_task_manager (task_manager : TaskManager) : M unit :=
  set_self (set_task_client (Some task_manager));;
  set_self (set_running_tasks ∅);;
  set_self (set_health_metrics (Some ∅)).

(** [EcologyManager.fetch_metric_stats] *)
Definition fetch_metric_stats (kwargs : list (string * string)) : M Z :=
  e ← get_self;
  external (GetMetricStatistics kwargs)
    (λ tr, get_metric_statistics (cloudwatch_client e) tr kwargs).

(** [metric_hash not in self.health_metrics]: a membership test on [None]
    is a [TypeError]. *)
Definition not_in_health_metrics (metric_hash : string) : M bool :=
  e ← get_self;
  match health_metrics e with
  | None => raise TypeError
  | Some cache => mret (bool_decide (cache !! metric_hash = None))
  end.

(** [self.health_metrics[metric_hash] = v] *)
Definition store_health_metric (metric_hash : string) (v : Z) : M unit :=
  e ← get_self;
  match health_metrics e with
  | None => raise TypeError
  | Some cache => set_self (set_health_metrics (Some (<[metric_hash := v]> cache)))
  end.

(** [self.health_metrics[metric_hash]] *)
Definition load_health_metric (metric_hash : string) : M Z :=
  e ← get_self;
  match health_metrics e with
  | None => raise TypeError
  | Some cache =>
      match cache !! metric_hash with
      | Some v => mret v
      | None => raise KeyError
      end
  end.

(** The first half of the body of the loop of [get_labourer_status]: the
    sample of one metric, from the cache or from CloudWatch. *)
Definition metric_value (health_metric : HealthMetric) : M Z :=
  let metric_hash := make_hash (details health_metric) in
  absent ← not_in_health_metrics metric_hash;
  (if absent : bool then
     v ← fetch_metric_stats (details health_metric);
     store_health_metric metric_hash v
   else mret ());;
  load_health_metric metric_hash.

(** The loop of [get_labourer_status] over the metrics of the labourer. *)
Fixpoint get_labourer_status_loop (health : Z) (metrics : list HealthMetric)
    : M Z :=
  match metrics with
  | [] => mret health
  | health_metric :: rest =>
      value ← metric_value health_metric;
      h ← lift (get_health value health_metric);
      get_labourer_status_loop (Z.min health h) rest
  end.

(** [getattr(labourer, 'health_metrics', dict()).values()] *)
Definition labourer_metrics (labourer : Labourer.t) : list HealthMetric :=
  map snd (default [] (Labourer.health_metrics labourer)).

(** [EcologyManager.get_labourer_status] *)
Definition get_labourer_status (labourer : Labourer.t) : M Z :=
  get_labourer_status_loop max_eco_status (labourer_metrics labourer).

(** [EcologyManager.count_running_tasks_for_labourer] *)
Definition count_running_tasks_for_labourer (labourer : Labourer.t) : M Z :=
  e ← get_self;
  match task_client e with
  | None => raise RuntimeError
  | Some tc =>
      (if bool_decide (running_tasks e !! Labourer.id labourer = None) then
         n ← external (GetCountOfRunningTasks (Labourer.id labourer))
               (λ tr, get_count_of_running_tasks_for_labourer tc tr labourer);
         set_self (λ e, set_running_tasks
                          (<[Labourer.id labourer := n]> (running_tasks e)) e)
       else mret ());;
      e ← get_self;
      mret (default 0 (running_tasks e !! Labourer.id labourer))
  end.

(** [EcologyManager.add_running_tasks_for_labourer] *)
Definition add_running_tasks_for_labourer (labourer : Labourer.t) (count : Z)
    : M unit :=
  n ← count_running_tasks_for_labourer labourer;
  set_self (λ e, set_running_tasks
                   (<[Labourer.id labourer := n + count]> (running_tasks e)) e).

(** [EcologyManager.get_labourer_average_duration] *)
Definition get_labourer_average_duration (labourer : Labourer.t) : M Z :=
  e ← get_self;
  match task_client e with
  | None => raise RuntimeError
  | Some tc =>
      external (GetAverageLabourerDuration (Labourer.id labourer))
        (λ tr, get_average_labourer_duration tc tr labourer)
  end.

(** [EcologyManager.get_max_labourer_duration] *)
Definition get_max_labourer_duration (labourer : Labourer.t) : M Z :=
  mret 900.

(** *** Sequences of calls on one manager *)

Inductive request : Type :=
  | RegisterTaskManager (task_manager : TaskManager)
  | GetLabourerStatus (labourer : Labourer.t)
  | CountRunningTasks (labourer : Labourer.t)
  | AddRunningTasks (labourer : Labourer.t) (count : Z)
  | GetLabourerAverageDuration (labourer : Labourer.t)
  | GetMaxLabourerDuration (labourer : Labourer.t)
  | FetchMetricStats (kwargs : list (string * string)).

Definition is_register (r : request) : bool :=
  match r with RegisterTaskManager _ => true | _ => false end.

(** The state a request leaves behind, whether it returns or raises. *)
Definition serve (r : request) (s : state) : state :=
  match r with
  | RegisterTaskManager tm => (register_task_manager tm s).2
  | GetLabourerStatus l => (get_labourer_status l s).2
  | CountRunningTasks l => (count_running_tasks_for_labourer l s).2
  | AddRunningTasks l c => (add_running_tasks_for_labourer l c s).2
  | GetLabourerAverageDuration l => (get_labourer_average_duration l s).2
  | GetMaxLabourerDuration l => (get_max_labourer_duration l s).2
  | FetchMetricStats kwargs => (fetch_metric_stats kwargs s).2
  end.

Definition serve_all (rs : list request) (s : state) : state :=
  foldl (λ s r, serve r s) s rs.

End Manager.

End EcologyManager.

(** ** Strings, Python values and the environment *)

(** [s.endswith(suffix)] *)
Definition endswith (s suffix : string) : bool :=
  String.prefix (String.rev suffix) (String.rev s).

(** [s.startswith(p)] *)
Definition startswith (s p : string) : bool := String.prefix p s.

(** [s.replace(old, '')]: every occurrence of [old] is removed, scanning
    from the left; [skip] counts the characters of an occurrence that are
    still to be dropped. *)
Fixpoint remove_all_from (old : string) (skip : nat) (s : string) : string :=
  match s with
  | EmptyString => EmptyString
  | String c rest =>
      match skip with
      | S k => remove_all_from old k rest
      | O =>
          if String.prefix old s && negb (String.eqb old EmptyString)
          then remove_all_from old (String.length old - 1) rest
          else String c (remove_all_from old 0 rest)
      end
  end.

Definition remove_all (old s : string) : string := remove_all_from old 0 s.

(** [c.lower()] for a character below 256: the upper-case letters are
    [A] to [Z] and the code points 192 to 222 without the multiplication
    sign 215, and each has its lower-case letter 32 places further. *)
Definition lower_char (c : ascii) : ascii :=
  let n := nat_of_ascii c in
  if ((65 <=? n)%nat && (n <=? 90)%nat)
     || ((192 <=? n)%nat && (n <=? 222)%nat && negb (n =? 215)%nat)
  then ascii_of_nat (n + 32) else c.

(** [s.lower()] *)
Fixpoint lower (s : string) : string :=
  match s with
  | EmptyString => EmptyString
  | String c rest => String (lower_char c) (lower rest)
  end.

(** The characters [str.strip()] removes, among those below 256: the
    ASCII ones (tab to carriage return, the four separators 28 to 31 and the
    space), the next-line control 133 and the no-break space 160. *)
Definition is_whitespace (c : ascii) : bool :=
  let n := nat_of_ascii c in
  ((9 <=? n)%nat && (n <=? 13)%nat) || ((28 <=? n)%nat && (n <=? 32)%nat)
  || (n =? 133)%nat || (n =? 160)%nat.

Fixpoint lstrip (s : string) : string :=
  match s with
  | EmptyString => EmptyString
  | String c rest => if is_whitespace c then lstrip rest else s
  end.

(** [s.strip()] *)
Definition strip (s : string) : string :=
  String.rev (lstrip (String.rev (lstrip s))).

(** [s.split(sep)] for a separator of one character. *)
Fixpoint split (sep : ascii) (s : string) : list string :=
  match s with
  | EmptyString => [EmptyString]
  | String c rest =>
      if Ascii.eqb c sep then EmptyString :: split sep rest
      else match split sep rest with
           | [] => [String c EmptyString]
           | word :: words => String c word :: words
           end
  end.

(** The values the configuration calls return: what [json.loads] produces,
    a raw [str], [None] or a [dict]. *)
Inductive pyvalue : Type :=
  | PyNone
  | PyBool (b : bool)
  | PyInt (n : Z)
  | PyStr (s : string)
  | PyList (items : list pyvalue)
  | PyDict (items : list (string * pyvalue)).

(** [json.loads(s)]: a [TypeError] when [s] is [None], a [JSONDecodeError]
    when the text is not a JSON document. The decoder itself, [json_decode],
    is a parameter. *)
Definition json_loads (json_decode : string → option pyvalue)
    (s : option string) : result pyvalue :=
  match s with
  | None => Raise TypeError
  | Some text =>
      match json_decode text with
      | Some v => Ok v
      | None => Raise JSONDecodeError
      end
  end.

(** [try: body except <caught>: handler] *)
Definition try_except {A} (body : result A) (caught : exn → bool)
    (handler : result A) : result A :=
  match body with
  | Ok a => Ok a
  | Raise e => if caught e then handler else Raise e
  end.

(** [except Exception] *)
Definition any_exception (e : exn) : bool := true.

(** [os.environ.get('STAGE') == 'test'] *)
Definition stage_is_test (environ : gmap string string) : bool :=
  bool_decide (environ !! "STAGE" = Some "test").

(** [os.environ.get('STAGE') == 'test' or os.environ.get('autotest') == 'True'] *)
Definition ambient_test (environ : gmap string string) : bool :=
  stage_is_test environ || bool_decide (environ !! "autotest" = Some "True").

(** A computation with a loop that is bounded by fuel in the model. *)
Inductive outcome (A : Type) : Type :=
  | Done (r : result A)
  | OutOfFuel.
Arguments Done {A} r.
Arguments OutOfFuel {A}.

#[global] Instance outcome_ret : MRet outcome := λ A a, Done (Ok a).
#[global] Instance outcome_bind : MBind outcome := λ A B k m,
  match m with
  | Done (Ok a) => k a
  | Done (Raise e) => Done (Raise e)
  | OutOfFuel => OutOfFuel
  end.

(** [dict(items)]: of two items with one key the later one stays. *)
Definition dict_of_items {V} (items : list (string * V)) : gmap string V :=
  list_to_map (reverse items).

(** [d.update(other)] *)
Definition dict_update {V} (d other : gmap string V) : gmap string V :=
  other ∪ d.

(** Modelled from the spec: [sosw.components.helpers.chunks] is not among
    the sources; the spec says that the names are batched into groups of at
    most [n], in order. [fuel] bounds the number of groups. *)
Fixpoint chunks_upto {A} (fuel : nat) (l : list A) (n : nat) : list (list A) :=
  match fuel, l with
  | O, _ => []
  | _, [] => []
  | S fuel', _ => take n l :: chunks_upto fuel' (drop n l) n
  end.

Definition chunks {A} (l : list A) (n : nat) : list (list A) :=
  chunks_upto (length l) l n.

(** ** [SecretsManager] *)

Module SecretsManager.

Record t : Type := { test : bool }.

(** [SecretsManager.__init__] *)
Definition init (environ : gmap string string) (test : bool) : t :=
  {| test := if negb test then ambient_test environ else test |}.

(** An element of [response['SecretList']] of [list_secrets]. *)
Record SecretListEntry : Type := {
  Name : string;
  ARN : string
}.

(** A page of [list_secrets]. *)
Record Response : Type := {
  SecretList : list SecretListEntry;
  NextToken : option string
}.

Record Filter : Type := {
  Key : string;
  Values : list string
}.

(** The keyword arguments of [list_secrets]: [Filters], and the [NextToken]
    the manual pagination adds. *)
Record kwargs : Type := {
  Filters : list Filter;
  token : option string
}.

(** [kwargs['NextToken'] = token] *)
Definition with_token (next : string) (kw : kwargs) : kwargs :=
  {| Filters := Filters kw; token := Some next |}.

(** The boto3 Secrets Manager client. [get_secret_value arn] is the
    [SecretString] of the response for [SecretId=arn], [None] when the
    response has no such key. *)
Record Client : Type := {
  can_paginate : string → bool;
  call : string → kwargs → result Response;
  paginate : string → kwargs → result (list Response);
  get_secret_value : string → result (option string)
}.

Section Methods.

Variable secretsmanager_client : Client.

(** The [while 'NextToken' in response] loop of the manual pagination. *)
Fixpoint pagination_loop (f : string) (kw : kwargs) (response : Response)
    (response_list : list Response) (fuel : nat) : outcome (list Response) :=
  match NextToken response with
  | None => Done (Ok response_list)
  | Some next =>
      match fuel with
      | O => OutOfFuel
      | S fuel' =>
          let kw := with_token next kw in
          match call secretsmanager_client f kw with
          | Raise e => Done (Raise e)
          | Ok page => pagination_loop f kw response (response_list ++ [page]) fuel'
          end
      end
  end.

(** [SecretsManager.call_boto_secrets_with_pagination] *)
Definition call_boto_secrets_with_pagination (fuel : nat) (f : string)
    (kw : kwargs) : outcome (list Response) :=
  if can_paginate secretsmanager_client f
  then Done (paginate secretsmanager_client f kw)
  else
    match call secretsmanager_client f kw with
    | Raise e => Done (Raise e)
    | Ok response => pagination_loop f kw response [response] fuel
    end.

(** The loop of [get_secrets_credentials] over the secrets that were listed. *)
Fixpoint get_secret_values (secrets : list SecretListEntry)
    (secrets_dict : gmap string string) : result (gmap string string) :=
  match secrets with
  | [] => Ok secrets_dict
  | secret :: rest =>
      match get_secret_value secretsmanager_client (ARN secret) with
      | Raise e => Raise e
      | Ok None => Raise KeyError
      | Ok (Some secret_string) =>
          get_secret_values rest (<[Name secret := secret_string]> secrets_dict)
      end
  end.

(** [SecretsManager.get_secrets_credentials]; [filter_type] and [value] are
    [kwargs.get('type')] and [kwargs.get('value')]. *)
Definition get_secrets_credentials (fuel : nat) (self : t)
    (filter_type value : option string) : outcome (gmap string string) :=
  let valid_types := ["tag"; "name"] in
  match filter_type with
  | None => Done (Raise KeyError)
  | Some filter_type =>
      if String.eqb filter_type EmptyString
         || negb (bool_decide (filter_type ∈ valid_types))
      then Done (Raise KeyError)
      else
        match value with
        | None => Done (Raise KeyError)
        | Some value =>
            if String.eqb value EmptyString then Done (Raise KeyError)
            else
              let filters :=
                if String.eqb filter_type "name"
                then [ {| Key := "name"; Values := [value] |} ]
                else [ {| Key := "tag-value"; Values := [value] |} ] in
              secret_response ← call_boto_secrets_with_pagination fuel
                "list_secrets" {| Filters := filters; token := None |};
              let secrets := concat (map SecretList secret_response) in
              match secrets with
              | [] => mret ∅
              | _ => Done (get_secret_values secrets ∅)
              end
        end
  end.

End Methods.

End SecretsManager.

(** ** [SSMConfig] *)

Module SSMConfig.

(** An element of [response['Parameters']] of [get_parameters]. *)
Record ParameterItem : Type := {
  Name : string;
  Type_ : string;
  Value : string
}.

(** A page of a response. *)
Record Response (P : Type) : Type := {
  Parameters : list P;
  NextToken : option string
}.
Arguments Parameters {P} _.
Arguments NextToken {P} _.

Record ParameterFilter : Type := {
  Key : string;
  Option_ : option string;
  Values : list string
}.

(** The keyword arguments of the two calls; [NextToken] is the key the
    manual pagination adds. *)
Inductive kwargs : Type :=
  | GetParameters (Names : list string) (WithDecryption : bool)
      (token : option string)
  | DescribeParameters (ParameterFilters : list ParameterFilter)
      (token : option string).

(** [kwargs['NextToken'] = token] *)
Definition with_token (token : string) (k : kwargs) : kwargs :=
  match k with
  | GetParameters names decryption _ => GetParameters names decryption (Some token)
  | DescribeParameters filters _ => DescribeParameters filters (Some token)
  end.

(** The boto3 SSM client: [call f kw] is [getattr(client, f)] applied to the
    keyword arguments [kw], and [paginate f kw] is the list of the pages of
    [client.get_paginator(f).paginate] applied to [kw]. The [Value] of an
    item of a page of [describe_parameters] is never read. *)
Record Client : Type := {
  can_paginate : string → bool;
  call : string → kwargs → result (Response ParameterItem);
  paginate : string → kwargs → result (list (Response ParameterItem))
}.

Record t : Type := { test : bool }.

(** [SSMConfig.__init__] *)
Definition init (environ : gmap string string) (test : bool) : t :=
  {| test := if negb test then ambient_test environ else test |}.

Section Methods.

Variable json_decode : string → option pyvalue.
Variable ssm_client : Client.

(** [response['Parameters'][0]['Value']] *)
Definition first_value (response : Response ParameterItem) : result string :=
  match Parameters response with
  | [] => Raise IndexError
  | p :: _ => Ok (Value p)
  end.

Definition caught_by_get_config (e : exn) : bool :=
  match e with
  | KeyError | IndexError | TypeError => true
  | _ => false
  end.

(** [SSMConfig.get_config] *)
Definition get_config (self : t) (name : string) : result pyvalue :=
  match try_except (call ssm_client "get_parameters" (GetParameters [name] true None))
          any_exception
          (call ssm_client "get_parameters" (GetParameters [name] false None)) with
  | Raise e => Raise e
  | Ok response =>
      try_except
        (match first_value response with
         | Raise e => Raise e
         | Ok text => json_loads json_decode (Some text)
         end)
        caught_by_get_config
        (Ok (PyDict []))
  end.

(** The [while 'NextToken' in response] loop of the manual pagination. The
    source never rebinds [response] inside the loop. *)
Fixpoint pagination_loop (f : string) (kw : kwargs)
    (response : Response ParameterItem) (response_list : list (Response ParameterItem))
    (fuel : nat) : outcome (list (Response ParameterItem)) :=
  match NextToken response with
  | None => Done (Ok response_list)
  | Some token =>
      match fuel with
      | O => OutOfFuel
      | S fuel' =>
          let kw := with_token token kw in
          match call ssm_client f kw with
          | Raise e => Done (Raise e)
          | Ok page => pagination_loop f kw response (response_list ++ [page]) fuel'
          end
      end
  end.

(** [SSMConfig.call_boto_with_pagination] *)
Definition call_boto_with_pagination (fuel : nat) (f : string) (kw : kwargs)
    : outcome (list (Response ParameterItem)) :=
  if can_paginate ssm_client f then Done (paginate ssm_client f kw)
  else
    match call ssm_client f kw with
    | Raise e => Done (Raise e)
    | Ok response => pagination_loop f kw response [response] fuel
    end.

Definition prefix_filters (env_tag prefix : string) : list ParameterFilter :=
  [ {| Key := "tag:Environment"; Option_ := None; Values := [env_tag] |};
    {| Key := "Name"; Option_ := Some "BeginsWith"; Values := [prefix] |} ].

(** [(x['Name'].replace(prefix, ''), x['Value'] if x['Value'] != 'None' else None)] *)
Definition credential_item (prefix : string) (x : ParameterItem)
    : string * pyvalue :=
  (remove_all prefix (Name x),
   if negb (String.eqb (Value x) "None") then PyStr (Value x) else PyNone).

(** [[param for obj in response for param in obj['Parameters']]] *)
Definition all_parameters (response : list (Response ParameterItem))
    : list ParameterItem :=
  concat (map Parameters response).

(** The loop of [get_credentials_by_prefix] over the chunks of names. *)
Fixpoint get_chunks (fuel : nat) (prefix : string) (decryption_required : bool)
    (chunks_of_names : list (list string)) (result : gmap string pyvalue)
    : outcome (gmap string pyvalue) :=
  match chunks_of_names with
  | [] => mret result
  | chunk_of_names :: rest =>
      get_params_response ← call_boto_with_pagination fuel "get_parameters"
        (GetParameters chunk_of_names decryption_required None);
      let params := all_parameters get_params_response in
      let result :=
        match params with
        | [] => result
        | _ => dict_update result (dict_of_items (map (credential_item prefix) params))
        end in
      get_chunks fuel prefix decryption_required rest result
  end.

(** [SSMConfig.get_credentials_by_prefix] *)
Definition get_credentials_by_prefix (fuel : nat) (self : t) (prefix : string)
    : outcome (gmap string pyvalue) :=
  let env_tag := if negb (test self) then "production" else "dev" in
  let prefix := if endswith prefix "_" then prefix else prefix +:+ "_" in
  describe_params_response ← call_boto_with_pagination fuel "describe_parameters"
    (DescribeParameters (prefix_filters env_tag prefix) None);
  let params := all_parameters describe_params_response in
  let names := map Name params in
  match names with
  | [] => mret ∅
  | _ =>
      let decryption_required :=
        existsb (λ param, String.eqb (Type_ param) "SecureString") params in
      get_chunks fuel prefix decryption_required (chunks names 10) ∅
  end.

End Methods.

End SSMConfig.

(** ** [DynamoDbClient] *)

Module DynamoDbClient.

(** A row of the configuration table. *)
Record Row : Type := {
  env : string;
  config_name : string;
  config_value : string
}.

(** The client holds its [config]; of it the model keeps the table name. *)
Record t : Type := { table_name : string }.

(** Modelled from the spec: [DynamoDbClient.get_by_query] is not among the
    sources. The spec gives the table service as
    [query(keys, comparisons?) -> list<row>], the rows of the table whose
    environment is the given one and whose name is the given one or, with
    the [begins_with] comparison, begins with it. [tables] maps a table name
    to its rows. *)
Definition get_by_query (tables : string → list Row) (client : t)
    (env_key name_key : string) (begins_with : bool) : list Row :=
  List.filter
    (λ row, String.eqb (env row) env_key
            && (if begins_with then String.prefix name_key (config_name row)
                else String.eqb (config_name row) name_key))
    (tables (table_name client)).

(** Modelled from the spec: [DynamoDbClient.update] is not among the
    sources. The spec gives the table service as
    [update(keys, attributesToUpdate) -> void] with upsert semantics: the
    value of the row with the given environment and name is replaced, and a
    row is added when the table has none. *)
Definition update (tables : string → list Row) (table env_key name_key val : string)
    : string → list Row :=
  let matches row :=
    String.eqb (env row) env_key && String.eqb (config_name row) name_key in
  let rows := tables table in
  let rows' :=
    if existsb matches rows
    then map (λ row, if matches row
                     then {| env := env row; config_name := config_name row;
                             config_value := val |}
                     else row) rows
    else rows ++ [ {| env := env_key; config_name := name_key;
                      config_value := val |} ] in
  λ name, if String.eqb name table then rows' else tables name.

End DynamoDbClient.

(** ** [DynamoConfig] *)

Module DynamoConfig.

(** [table_name] is [self.config['dynamo_client_config']['table_name']]. *)
Record t : Type := {
  test : bool;
  table_name : string;
  dynamo_client : option DynamoDbClient.t
}.

(** [DynamoConfig.__init__]; [config] is the table name of a custom
    [dynamo_client_config], when the caller passes one. *)
Definition init (environ : gmap string string) (test : bool)
    (config : option string) : t :=
  let test := if negb test then ambient_test environ else test in
  {| test := test;
     table_name := default (if negb test then "config" else "autotest_config") config;
     dynamo_client := None |}.

(** [DynamoConfig._get_dynamo_client] *)
Definition _get_dynamo_client (self : t) : DynamoDbClient.t * t :=
  match dynamo_client self with
  | Some client => (client, self)
  | None =>
      let name := if test self then "autotest_config_component" else table_name self in
      let client := {| DynamoDbClient.table_name := name |} in
      (client, {| test := test self; table_name := name; dynamo_client := Some client |})
  end.

Section Methods.

Variable json_decode : string → option pyvalue.
Variable environ : gmap string string.
Variable tables : string → list DynamoDbClient.Row.

(** [DynamoConfig.get_config]; the client the adapter holds is the one whose
    table name is redirected. *)
Definition get_config (self : t) (name env : string) : result pyvalue * t :=
  let '(client, self) := _get_dynamo_client self in
  let client :=
    if ambient_test environ
    then {| DynamoDbClient.table_name := "autotest_config" |} else client in
  let self := {| test := test self; table_name := table_name self;
                 dynamo_client := Some client |} in
  let items := DynamoDbClient.get_by_query tables client env name false in
  let item := head items in
  let config_value := DynamoDbClient.config_value <$> item in
  (try_except (json_loads json_decode config_value) any_exception
     (Ok (match config_value with
          | Some text => PyStr text
          | None => PyDict []
          end)),
   self).

(** The value a row contributes: [json.loads] of the text, the text itself
    when that raises. *)
Definition row_value (text : string) : pyvalue :=
  match json_loads json_decode (Some text) with
  | Ok v => v
  | Raise _ => PyStr text
  end.

(** [DynamoConfig.get_credentials_by_prefix] *)
Definition get_credentials_by_prefix (self : t) (prefix env : string)
    : gmap string pyvalue * t :=
  let prefix := if endswith prefix "_" then prefix else prefix +:+ "_" in
  let env := if test self || startswith prefix "autotest_" then "dev" else env in
  let '(client, self) := _get_dynamo_client self in
  let items := DynamoDbClient.get_by_query tables client env prefix true in
  (foldl (λ res row,
            <[remove_all prefix (DynamoDbClient.config_name row)
              := row_value (DynamoDbClient.config_value row)]> res)
         ∅ items,
   self).

(** The call [update_config] makes: [dynamo_client.update] with the keys
    [env] and [config_name] and the new [config_value], on the table the
    client names at that moment. *)
Record UpdateCall : Type := {
  update_table : string;
  update_env : string;
  update_name : string;
  update_value : string
}.

(** [DynamoConfig.update_config] *)
Definition update_config (self : t) (name val : string) : UpdateCall * t :=
  let env :=
    if test self
       || bool_decide (environ !! "STAGE" = Some "test")
       || bool_decide (environ !! "STAGE" = Some "autotest")
    then "dev" else "production" in
  let '(client, self) := _get_dynamo_client self in
  ({| update_table := DynamoDbClient.table_name client; update_env := env;
      update_name := name; update_value := val |},
   self).

End Methods.

End DynamoConfig.

(** ** [ConfigSource] *)

Module ConfigSource.

Definition SUPPORTED_SOURCES : list string := ["Dynamo"; "SSM"].

(** The [sources] argument: [None], a [str], or something else (a list). *)
Inductive sources_arg : Type :=
  | SourcesNone
  | SourcesStr (s : string)
  | SourcesList (items : list string).

(** [not sources] *)
Definition not_sources (sources : sources_arg) : bool :=
  match sources with
  | SourcesNone => true
  | SourcesStr s => String.eqb s EmptyString
  | SourcesList items => match items with [] => true | _ => false end
  end.

(** [config] maps [<source>_config] to the custom configuration of that
    client, of which the model keeps the table name of a custom
    [dynamo_client_config]. [default_source] names the attribute that holds
    the default client. *)
Record t : Type := {
  test : bool;
  config : gmap string (option string);
  default_source : option string;
  dynamo_config : option DynamoConfig.t;
  ssm_config : option SSMConfig.t;
  secrets_manager_class : option SecretsManager.t
}.

(** The body of the loop over [sources] in [__init__]. *)
Definition add_source (environ : gmap string string) (self : t)
    (source : string) : result t :=
  let attribute := lower source +:+ "_config" in
  let cfg := default None (config self !! attribute) in
  let default_source :=
    match default_source self with
    | None => Some attribute
    | Some d => Some d
    end in
  if String.eqb source "Dynamo" then
    Ok {| test := test self; config := config self;
          default_source := default_source;
          dynamo_config := Some (DynamoConfig.init environ (test self) cfg);
          ssm_config := ssm_config self;
          secrets_manager_class := secrets_manager_class self |}
  else if String.eqb source "SSM" then
    Ok {| test := test self; config := config self;
          default_source := default_source;
          dynamo_config := dynamo_config self;
          ssm_config := Some (SSMConfig.init environ (test self));
          secrets_manager_class := secrets_manager_class self |}
  else Raise KeyError.

Fixpoint add_sources (environ : gmap string string) (self : t)
    (sources : list string) : result t :=
  match sources with
  | [] => Ok self
  | source :: rest =>
      match add_source environ self source with
      | Raise e => Raise e
      | Ok self => add_sources environ self rest
      end
  end.

(** [ConfigSource.__init__]. The first assignment is
    [self.test = test or True if os.environ.get('STAGE') == 'test' else False],
    which Python reads as [(test or True) if ... else False]. *)
Definition init (environ : gmap string string) (test : bool)
    (sources : sources_arg) (config : option (gmap string (option string)))
    : result t :=
  let test := if stage_is_test environ then test || true else false in
  match
    (if not_sources sources then Ok ["Dynamo"]
     else match sources with
          | SourcesStr s => Ok (map strip (split "," s))
          | _ => Raise ValueError
          end)
  with
  | Raise e => Raise e
  | Ok sources =>
      if negb (forallb (λ x, bool_decide (x ∈ SUPPORTED_SOURCES)) sources)
      then Raise AssertionError
      else
        match add_sources environ
                {| test := test; config := default ∅ config;
                   default_source := None; dynamo_config := None;
                   ssm_config := None; secrets_manager_class := None |}
                sources with
        | Raise e => Raise e
        | Ok self =>
            Ok {| test := ConfigSource.test self; config := ConfigSource.config self;
                  default_source := default_source self;
                  dynamo_config := dynamo_config self;
                  ssm_config := ssm_config self;
                  secrets_manager_class := Some (SecretsManager.init environ false) |}
        end
  end.

(** The module-level [ConfigSource(test=test)] with
    [test = True if os.environ.get('STAGE') == 'test' else False]. *)
Definition module_config_source (environ : gmap string string) : result t :=
  init environ (stage_is_test environ) SourcesNone None.

End ConfigSource.

Import EcologyManager.

(** * Vocabulary of the statements, and example data *)

(** The threshold the walk compares the current one with at step [i]:
    [last_target] at the first step, the threshold of step [i - 1] after. *)
Fixpoint previous_target (last_target : Z) (items : list (Z * Z)) (i : nat)
    {struct i} : Z :=
  match i, items with
  | O, _ => last_target
  | S k, (_, target) :: rest => previous_target target rest k
  | S _, [] => last_target
  end.

(** Step [i] of the walk exists and [op(target, last_target)] holds there. *)
Definition order_check_holds_at (o : comparison_operator) (last_target : Z)
    (items : list (Z * Z)) (i : nat) : Prop :=
  ∃ health target, items !! i = Some (health, target)
    ∧ op o target (previous_target last_target items i) = true.

(** Step [i] of the walk exists and [op(value, target)] holds there. *)
Definition sample_satisfies_at (o : comparison_operator) (value : Z)
    (items : list (Z * Z)) (i : nat) : Prop :=
  ∃ health target, items !! i = Some (health, target) ∧ op o value target = true.

Definition is_metric_fetch (c : call) : bool :=
  match c with GetMetricStatistics _ => true | _ => false end.

(** The number of CloudWatch queries in a trace. *)
Definition metric_fetches (tr : list call) : nat :=
  length (List.filter is_metric_fetch tr).

(** The statuses of the metrics of a labourer, one per metric, each computed
    from the sample of the metric. *)
Fixpoint metric_statuses (make_hash : list (string * string) → string)
    (metrics : list HealthMetric) : M (list Z) :=
  match metrics with
  | [] => mret []
  | health_metric :: rest =>
      value ← metric_value make_hash health_metric;
      h ← lift (get_health value health_metric);
      hs ← metric_statuses make_hash rest;
      mret (h :: hs)
  end.

(** The minimum of a status and a list of statuses. *)
Definition min_status (start : Z) (statuses : list Z) : Z :=
  foldr Z.min start statuses.

Definition metric_ge_10_20_30 : HealthMetric :=
  {| details := [("MetricName", "Throughput")];
     feelings := {[ 0 := 10; 1 := 20; 2 := 30 ]};
     feeling_comparison_operator := Ge |}.

Definition metric_le_25_50 : HealthMetric :=
  {| details := [("MetricName", "CPUUtilization")];
     feelings := {[ 3 := 50; 4 := 25 ]};
     feeling_comparison_operator := Le |}.

Definition metric_le_100 : HealthMetric :=
  {| details := [("MetricName", "Latency")];
     feelings := {[ 1 := 100 ]};
     feeling_comparison_operator := Le |}.

(** A content hash for the examples: the keys and values, joined. *)
Definition hash_of_details (d : list (string * string)) : string :=
  String.concat ";" (map (λ kv, fst kv +:+ "=" +:+ snd kv) d).

(** A CloudWatch whose answer grows with every call made so far. *)
Definition cloudwatch_growing : CloudWatchClient :=
  {| get_metric_statistics := λ tr _, 30 + Z.of_nat (length tr) |}.

Definition task_manager_7 : TaskManager :=
  {| get_count_of_running_tasks_for_labourer := λ tr _, 7 + Z.of_nat (length tr);
     get_average_labourer_duration := λ _ _, 120 |}.

Definition labourer_two_metrics : Labourer.t :=
  {| Labourer.id := "some_function";
     Labourer.health_metrics :=
       Some [("cpu", metric_le_25_50); ("latency", metric_le_100)] |}.

Definition labourer_no_metrics : Labourer.t :=
  {| Labourer.id := "idle_function"; Labourer.health_metrics := None |}.

(** A manager right after the registration of a task manager. *)
Definition registered_state : state :=
  serve_all hash_of_details [RegisterTaskManager task_manager_7]
    (initial cloudwatch_growing).

(** A labourer whose second metric is misconfigured. *)
Definition labourer_bad_second : Labourer.t :=
  {| Labourer.id := "some_function";
     Labourer.health_metrics :=
       Some [("cpu", metric_le_25_50); ("throughput", metric_ge_10_20_30)] |}.

(** The value of a string of decimal digits, after [acc]. *)
Fixpoint decimal (acc : Z) (s : string) : option Z :=
  match s with
  | EmptyString => Some acc
  | String c rest =>
      let n := nat_of_ascii c in
      if (48 <=? n)%nat && (n <=? 57)%nat
      then decimal (10 * acc + Z.of_nat (n - 48)) rest
      else None
  end.

(** A JSON number without sign, fraction or exponent: no leading zero. *)
Definition json_natural (s : string) : option Z :=
  match s with
  | EmptyString => None
  | String c rest =>
      if Ascii.eqb c "0" && negb (String.eqb rest EmptyString) then None
      else decimal 0 s
  end.

(** A JSON integer: an optional minus sign and the digits. *)
Definition json_integer (s : string) : option Z :=
  match s with
  | String "-" rest => Z.opp <$> json_natural rest
  | _ => json_natural s
  end.

Definition double_quote : ascii := ascii_of_nat 34.

(** No control character, no double quote and no backslash. *)
Fixpoint plain_characters (s : string) : bool :=
  match s with
  | EmptyString => true
  | String c rest =>
      (32 <=? nat_of_ascii c)%nat && negb (Ascii.eqb c double_quote)
      && negb (Ascii.eqb c "\") && plain_characters rest
  end.

(** A JSON string of plain characters between double quotes. *)
Definition json_string (s : string) : option string :=
  match s with
  | String c rest =>
      match String.rev rest with
      | String c' inner =>
          if Ascii.eqb c double_quote && Ascii.eqb c' double_quote
             && plain_characters inner
          then Some (String.rev inner) else None
      | EmptyString => None
      end
  | EmptyString => None
  end.

(** A decoder for the examples. It decodes the JSON scalars [null], [true],
    [false], the integers and the strings without escapes, written without
    white space around them, and rejects every other text; arrays, objects,
    fractions and escapes, which [json.loads] decodes, are beyond it. *)
Definition json_scalar (text : string) : option pyvalue :=
  if String.eqb text "null" then Some PyNone
  else if String.eqb text "true" then Some (PyBool true)
  else if String.eqb text "false" then Some (PyBool false)
  else match json_integer text with
       | Some n => Some (PyInt n)
       | None => PyStr <$> json_string text
       end.

(** An SSM that answers from a list of parameters, in one page: the
    parameters named in the call, or those whose name begins with a value of
    the [Name] filter. *)
Definition ssm_page (store : list SSMConfig.ParameterItem) (kw : SSMConfig.kwargs)
    : SSMConfig.Response SSMConfig.ParameterItem :=
  match kw with
  | SSMConfig.GetParameters names _ _ =>
      {| SSMConfig.Parameters :=
           List.filter (λ p, bool_decide (SSMConfig.Name p ∈ names)) store;
         SSMConfig.NextToken := None |}
  | SSMConfig.DescribeParameters filters _ =>
      {| SSMConfig.Parameters :=
           List.filter
             (λ p, forallb
                     (λ f, negb (String.eqb (SSMConfig.Key f) "Name")
                           || existsb (λ v, String.prefix v (SSMConfig.Name p))
                                (SSMConfig.Values f))
                     filters)
             store;
         SSMConfig.NextToken := None |}
  end.

Definition ssm_of_store (store : list SSMConfig.ParameterItem) : SSMConfig.Client :=
  {| SSMConfig.can_paginate := λ f, String.eqb f "describe_parameters";
     SSMConfig.call := λ _ kw, Ok (ssm_page store kw);
     SSMConfig.paginate := λ _ kw, Ok [ssm_page store kw] |}.

Definition ssm_store : list SSMConfig.ParameterItem :=
  [ {| SSMConfig.Name := "db_host"; SSMConfig.Type_ := "String";
       SSMConfig.Value := "example.org" |};
    {| SSMConfig.Name := "db_password"; SSMConfig.Type_ := "SecureString";
       SSMConfig.Value := "None" |};
    {| SSMConfig.Name := "limits"; SSMConfig.Type_ := "String";
       SSMConfig.Value := "42" |};
    {| SSMConfig.Name := "greeting"; SSMConfig.Type_ := "String";
       SSMConfig.Value := "hello" |} ].

Definition dynamo_rows : list DynamoDbClient.Row :=
  [ {| DynamoDbClient.env := "production"; DynamoDbClient.config_name := "db_host";
       DynamoDbClient.config_value := "example.org" |};
    {| DynamoDbClient.env := "production"; DynamoDbClient.config_name := "db_password";
       DynamoDbClient.config_value := "None" |};
    {| DynamoDbClient.env := "production"; DynamoDbClient.config_name := "limits";
       DynamoDbClient.config_value := "42" |} ].

Definition dynamo_tables (table_name : string) : list DynamoDbClient.Row :=
  if String.eqb table_name "config" then dynamo_rows else [].

(** The adapters of a process with no test markers in its environment. *)
Definition ssm_adapter : SSMConfig.t := SSMConfig.init ∅ false.
Definition dynamo_adapter : DynamoConfig.t := DynamoConfig.init ∅ false None.

(** The response [SSMConfig.get_config] reads: that of the call with
    decryption, or of the call without it when the first one raises. *)
Definition ssm_get_parameters_response (ssm_client : SSMConfig.Client)
    (name : string) : result (SSMConfig.Response SSMConfig.ParameterItem) :=
  try_except
    (SSMConfig.call ssm_client "get_parameters" (SSMConfig.GetParameters [name] true None))
    any_exception
    (SSMConfig.call ssm_client "get_parameters" (SSMConfig.GetParameters [name] false None)).

(** [prefix if prefix.endswith('_') else prefix + '_'] *)
Definition normalized (prefix : string) : string :=
  if endswith prefix "_" then prefix else prefix +:+ "_".



(** An SSM that cannot paginate and whose every page announces a next one. *)
Definition ssm_endless : SSMConfig.Client :=
  {| SSMConfig.can_paginate := λ _, false;
     SSMConfig.call := λ _ _,
       Ok {| SSMConfig.Parameters := []; SSMConfig.NextToken := Some "more" |};
     SSMConfig.paginate := λ _ _, Raise ClientError |}.

(** The sample cache of [s'] holds every sample of the cache of [s]; when
    [s] has no cache, neither has [s']. *)
Definition cache_included (s s' : state) : Prop :=
  match health_metrics (self s) with
  | None => health_metrics (self s') = None
  | Some cache =>
      ∃ cache', health_metrics (self s') = Some cache' ∧ cache ⊆ cache'
  end.

(** A comparison that a smaller sample satisfies whenever a larger one does,
    and one that a larger sample satisfies whenever a smaller one does. *)
Definition lower_is_better (o : comparison_operator) : Prop := o = Le ∨ o = Lt.
Definition higher_is_better (o : comparison_operator) : Prop := o = Ge ∨ o = Gt.

(** The name of the attribute that holds the client of a source:
    [f"{source.lower()}_config"]. *)
Definition attribute_of (source : string) : string := lower source +:+ "_config".

(** [x in self.SUPPORTED_SOURCES] *)
Definition supported (source : string) : bool :=
  bool_decide (source ∈ ConfigSource.SUPPORTED_SOURCES).

(** The request [get_secrets_credentials] accepts: a type that is [tag] or
    [name] and a value that is not empty. *)
Definition valid_secret_request (filter_type value : option string) : bool :=
  match filter_type, value with
  | Some filter_type, Some value =>
      (String.eqb filter_type "tag" || String.eqb filter_type "name")
      && negb (String.eqb value EmptyString)
  | _, _ => false
  end.

(** The keyword arguments [get_secrets_credentials] lists the secrets with. *)
Definition list_secrets_kwargs (filter_type value : string) : SecretsManager.kwargs :=
  {| SecretsManager.Filters :=
       [ {| SecretsManager.Key :=
              if String.eqb filter_type "name" then "name" else "tag-value";
            SecretsManager.Values := [value] |} ];
     SecretsManager.token := None |}.

(** A Secrets Manager that lists two secrets for every request, in one page,
    and holds a string for each. *)
Definition secrets_client : SecretsManager.Client :=
  {| SecretsManager.can_paginate := λ _, true;
     SecretsManager.call := λ _ _, Raise ClientError;
     SecretsManager.paginate := λ _ _,
       Ok [ {| SecretsManager.SecretList :=
                 [ {| SecretsManager.Name := "db"; SecretsManager.ARN := "arn:db" |};
                   {| SecretsManager.Name := "api"; SecretsManager.ARN := "arn:api" |} ];
               SecretsManager.NextToken := None |} ];
     SecretsManager.get_secret_value := λ arn,
       Ok (Some (if String.eqb arn "arn:db" then "s3cret" else "t0ken")) |}.

(** * Properties of the ecology manager *)

(** ** The walk over the thresholds *)

Lemma previous_target_succ last_target items k health target :
  items !! k = Some (health, target) →
  previous_target last_target items (S k) = target.
Proof.
  revert last_target k. induction items as [|[h t] rest IH]; intros last k Hk.
  - discriminate.
  - destruct k as [|k]; simpl in *.
    + congruence.
    + destruct rest as [|[h' t'] rest']; [discriminate|].
      apply (IH t k Hk).
Qed.

Lemma order_check_holds_at_cons o last h t rest i :
  order_check_holds_at o last ((h, t) :: rest) (S i)
  ↔ order_check_holds_at o t rest i.
Proof. unfold order_check_holds_at. simpl. reflexivity. Qed.

Lemma sample_satisfies_at_cons o value h t rest i :
  sample_satisfies_at o value ((h, t) :: rest) (S i)
  ↔ sample_satisfies_at o value rest i.
Proof. unfold sample_satisfies_at. simpl. reflexivity. Qed.

Lemma get_health_loop_raises o value last items e :
  get_health_loop o value last items = Raise e
  ↔ e = ValueError
    ∧ ∃ i, order_check_holds_at o last items i
         ∧ ∀ j, (j < i)%nat → ¬ sample_satisfies_at o value items j.
Proof.
  revert last. induction items as [|[h t] rest IH]; intros last; simpl.
  - split; [discriminate|].
    intros [_ (i & (h & t & Hi & _) & _)]. destruct i; discriminate.
  - destruct (op o t last) eqn:Hguard.
    + split.
      * intros [= <-]. split; [done|]. exists 0%nat. split.
        -- exists h, t. done.
        -- intros j Hj. lia.
      * intros [-> _]. done.
    + destruct (op o value t) eqn:Hmatch.
      * split; [discriminate|].
        intros [_ (i & Hi & Hbefore)]. destruct i as [|i].
        -- destruct Hi as (h' & t' & [= <- <-] & Hop). simpl in Hop. congruence.
        -- exfalso. apply (Hbefore 0%nat); [lia|]. exists h, t. done.
      * rewrite IH. split.
        -- intros [-> (i & Hi & Hbefore)]. split; [done|]. exists (S i). split.
           ++ by apply order_check_holds_at_cons.
           ++ intros [|j] Hj.
              ** intros (h' & t' & [= <- <-] & Hop). congruence.
              ** rewrite sample_satisfies_at_cons. apply Hbefore. lia.
        -- intros [-> (i & Hi & Hbefore)]. split; [done|]. destruct i as [|i].
           ++ destruct Hi as (h' & t' & [= <- <-] & Hop). simpl in Hop. congruence.
           ++ exists i. split; [by apply order_check_holds_at_cons in Hi|].
              intros j Hj. rewrite <- (sample_satisfies_at_cons o value h t).
              apply Hbefore. lia.
Qed.

Lemma get_health_loop_returns o value last items r :
  get_health_loop o value last items = Ok r
  ↔ (∃ i target, items !! i = Some (r, target) ∧ op o value target = true
       ∧ (∀ j, (j < i)%nat → ¬ sample_satisfies_at o value items j)
       ∧ (∀ j, (j ≤ i)%nat → ¬ order_check_holds_at o last items j))
    ∨ (r = 0 ∧ (∀ j, ¬ sample_satisfies_at o value items j)
             ∧ (∀ j, ¬ order_check_holds_at o last items j)).
Proof.
  revert last. induction items as [|[h t] rest IH]; intros last; simpl.
  - split.
    + intros [= <-]. right. split; [done|].
      split; intros j (h & t & Hj & _); destruct j; discriminate.
    + intros [(i & t & Hi & _)|[-> _]]; [destruct i; discriminate|done].
  - assert (Hhere : ∀ b, op o t last = b →
              order_check_holds_at o last ((h, t) :: rest) 0 ↔ b = true).
    { intros b Hb. split.
      - intros (h' & t' & [= <- <-] & Hop). simpl in Hop. congruence.
      - intros ->. exists h, t. done. }
    assert (Hmatch0 : ∀ b, op o value t = b →
              sample_satisfies_at o value ((h, t) :: rest) 0 ↔ b = true).
    { intros b Hb. split.
      - intros (h' & t' & [= <- <-] & Hop). congruence.
      - intros ->. exists h, t. done. }
    destruct (op o t last) eqn:Hguard.
    + split; [discriminate|]. intros [(i & t' & _ & _ & _ & Hno)|(_ & _ & Hno)].
      * exfalso. apply (Hno 0%nat); [lia|]. by apply (Hhere true).
      * exfalso. apply (Hno 0%nat). by apply (Hhere true).
    + destruct (op o value t) eqn:Hmatch.
      * split.
        -- intros [= <-]. left. exists 0%nat, t. repeat split; try done.
           ++ intros j Hj. lia.
           ++ intros j Hj. assert (j = 0%nat) as -> by lia.
              rewrite (Hhere false); done.
        -- intros [(i & t' & Hi & _ & Hbefore & _)|(_ & Hnone & _)].
           ++ destruct i as [|i]; [by injection Hi as -> _|].
              exfalso. apply (Hbefore 0%nat); [lia|]. by apply (Hmatch0 true).
           ++ exfalso. apply (Hnone 0%nat). by apply (Hmatch0 true).
      * rewrite IH. split.
        -- intros [(i & t' & Hi & Hop & Hbefore & Hno)|(-> & Hnone & Hno)].
           ++ left. exists (S i), t'. repeat split; try done.
              ** intros [|j] Hj; [rewrite (Hmatch0 false); done|].
                 rewrite sample_satisfies_at_cons. apply Hbefore. lia.
              ** intros [|j] Hj; [rewrite (Hhere false); done|].
                 rewrite order_check_holds_at_cons. apply Hno. lia.
           ++ right. repeat split; try done.
              ** intros [|j]; [rewrite (Hmatch0 false); done|].
                 rewrite sample_satisfies_at_cons. apply Hnone.
              ** intros [|j]; [rewrite (Hhere false); done|].
                 rewrite order_check_holds_at_cons. apply Hno.
        -- intros [(i & t' & Hi & Hop & Hbefore & Hno)|(-> & Hnone & Hno)].
           ++ destruct i as [|i].
              { injection Hi as -> ->. congruence. }
              left. exists i, t'. repeat split; try done.
              ** intros j Hj. rewrite <- (sample_satisfies_at_cons o value h t).
                 apply Hbefore. lia.
              ** intros j Hj. rewrite <- (order_check_holds_at_cons o last h t).
                 apply Hno. lia.
           ++ right. repeat split; try done.
              ** intros j. rewrite <- (sample_satisfies_at_cons o value h t).
                 apply Hnone.
              ** intros j. rewrite <- (order_check_holds_at_cons o last h t).
                 apply Hno.
Qed.

(** The walk never raises anything but [ValueError]. *)
Lemma get_health_loop_exn o value last items e :
  get_health_loop o value last items = Raise e → e = ValueError.
Proof. intros H. by apply get_health_loop_raises in H as [-> _]. Qed.

(** ** The order of the walk *)

#[global] Instance reverse_le_trans : Transitive reverse_le.
Proof. intros a b c. unfold reverse_le. lia. Qed.

#[global] Instance reverse_le_total : Total reverse_le.
Proof. intros a b. unfold reverse_le. lia. Qed.

Lemma sorted_keys_reverse_elem f key :
  key ∈ sorted_keys_reverse f ↔ is_Some (f !! key).
Proof.
  unfold sorted_keys_reverse. rewrite merge_sort_Permutation.
  rewrite list_elem_of_fmap. split.
  - intros ([k t] & -> & Hin). apply elem_of_map_to_list in Hin. eauto.
  - intros [t Ht]. exists (key, t). split; [done|]. by apply elem_of_map_to_list.
Qed.

Lemma sorted_keys_reverse_NoDup f : NoDup (sorted_keys_reverse f).
Proof.
  unfold sorted_keys_reverse. rewrite merge_sort_Permutation.
  apply NoDup_fst_map_to_list.
Qed.

Lemma strictly_descending (l : list Z) :
  StronglySorted reverse_le l → NoDup l → StronglySorted (λ a b : Z, b < a) l.
Proof.
  induction 1 as [|a l Hs IH Hall]; intros Hnd; [constructor|].
  apply NoDup_cons in Hnd as [Hnotin Hnd]. constructor; [by apply IH|].
  rewrite Forall_forall in Hall |- *. intros b Hb.
  specialize (Hall b Hb). unfold reverse_le in Hall.
  assert (a ≠ b) by (intros ->; done). lia.
Qed.

Lemma ordered_feelings_keys f :
  map fst (ordered_feelings f) = sorted_keys_reverse f.
Proof.
  unfold ordered_feelings.
  assert (Hall : ∀ key, key ∈ sorted_keys_reverse f → is_Some (f !! key))
    by (intros key; apply sorted_keys_reverse_elem).
  induction (sorted_keys_reverse f) as [|key keys IH]; [done|]. simpl.
  destruct (Hall key) as [t Ht]; [left|]. rewrite Ht. simpl. f_equal.
  apply IH. intros k Hk. apply Hall. by right.
Qed.

Lemma ordered_feelings_keys_sorted f :
  StronglySorted (λ a b : Z, b < a) (sorted_keys_reverse f).
Proof.
  apply strictly_descending.
  - apply StronglySorted_merge_sort; apply _.
  - apply sorted_keys_reverse_NoDup.
Qed.

(** The walk visits exactly the entries of [feelings]. *)
Lemma ordered_feelings_elem f health target :
  (health, target) ∈ ordered_feelings f ↔ f !! health = Some target.
Proof.
  unfold ordered_feelings. rewrite list_elem_of_omap. split.
  - intros (key & _ & Hkey). destruct (f !! key) eqn:E; simpl in Hkey; congruence.
  - intros Hf. exists health. split.
    + apply sorted_keys_reverse_elem. eauto.
    + by rewrite Hf.
Qed.

(** The walk of [get_health] visits the eco statuses of the metric from the
    highest to the lowest, each once, and it visits exactly the entries of
    [feelings]: a status stands in the walk with a threshold exactly when
    [feelings] maps the status to that threshold, and the walk has as many
    steps as [feelings] has entries. *)
Theorem ordered_feelings_descending f :
  StronglySorted (λ a b : Z, b < a) (map fst (ordered_feelings f))
  ∧ (∀ health target,
       (health, target) ∈ ordered_feelings f ↔ f !! health = Some target)
  ∧ length (ordered_feelings f) = size f.
Proof.
  split; [|split].
  - rewrite ordered_feelings_keys. apply ordered_feelings_keys_sorted.
  - intros health target. apply ordered_feelings_elem.
  - rewrite <- (length_map fst), ordered_feelings_keys.
    unfold sorted_keys_reverse. rewrite merge_sort_Permutation.
    rewrite length_map. apply length_map_to_list.
Qed.

(** ** The sample cache *)

Ltac run_M :=
  unfold metric_value, not_in_health_metrics, store_health_metric,
    load_health_metric, fetch_metric_stats, register_task_manager,
    count_running_tasks_for_labourer, add_running_tasks_for_labourer,
    get_labourer_average_duration, external, get_self, set_self, raise, lift,
    mbind, M_bind, mret, M_ret;
  simpl.

Lemma bind_run {A B} (m : M A) (k : A → M B) (s : state) :
  (m ≫= k) s
  = match m s with
    | (Ok a, s') => k a s'
    | (Raise e, s') => (Raise e, s')
    end.
Proof. reflexivity. Qed.

Section ManagerProofs.

Variable make_hash : list (string * string) → string.

Lemma metric_value_hit m s cache v :
  health_metrics (self s) = Some cache →
  cache !! make_hash (details m) = Some v →
  metric_value make_hash m s = (Ok v, s).
Proof.
  intros Hc Hv. run_M. rewrite Hc. simpl.
  rewrite bool_decide_eq_false_2 by congruence. simpl.
  by rewrite Hc, Hv.
Qed.

Lemma metric_value_miss m s cache :
  health_metrics (self s) = Some cache →
  cache !! make_hash (details m) = None →
  let v := get_metric_statistics (cloudwatch_client (self s)) (trace s) (details m) in
  metric_value make_hash m s
  = (Ok v,
     {| self := set_health_metrics
                  (Some (<[make_hash (details m) := v]> cache)) (self s);
        trace := trace s ++ [GetMetricStatistics (details m)] |}).
Proof.
  intros Hc Hv. run_M. rewrite Hc. simpl.
  rewrite bool_decide_eq_true_2 by done. simpl.
  rewrite Hc. simpl. by rewrite lookup_insert_eq.
Qed.

Lemma metric_value_unregistered m s :
  health_metrics (self s) = None →
  metric_value make_hash m s = (Raise TypeError, s).
Proof. intros Hc. run_M. by rewrite Hc. Qed.

Lemma metric_fetches_app tr1 tr2 :
  metric_fetches (tr1 ++ tr2) = (metric_fetches tr1 + metric_fetches tr2)%nat.
Proof. unfold metric_fetches. by rewrite List.filter_app, length_app. Qed.

(** The loop with the running minimum computes the minimum of the list of
    statuses. *)
Lemma get_labourer_status_loop_min health metrics s :
  get_labourer_status_loop make_hash health metrics s
  = match metric_statuses make_hash metrics s with
    | (Ok statuses, s') => (Ok (foldl Z.min health statuses), s')
    | (Raise e, s') => (Raise e, s')
    end.
Proof.
  revert health s. induction metrics as [|m rest IH]; intros health s; simpl.
  - done.
  - unfold mbind, M_bind at 1 3. destruct (metric_value make_hash m s) as [[v|e] s1]; [|done].
    unfold mbind, M_bind at 1 3. unfold lift at 1 2.
    destruct (get_health v m) as [h|e]; [|done].
    rewrite IH. unfold mbind, M_bind.
    destruct (metric_statuses make_hash rest s1) as [[hs|e] s2]; done.
Qed.

Lemma foldl_min_foldr start (statuses : list Z) :
  foldl Z.min start statuses = min_status start statuses.
Proof.
  unfold min_status. revert start.
  induction statuses as [|h hs IH]; intros start; simpl; [done|].
  rewrite IH. clear IH. revert start h.
  induction hs as [|h' hs IH]; intros start h; simpl; [lia|].
  rewrite IH. lia.
Qed.

Lemma min_status_least start (statuses : list Z) :
  min_status start statuses ∈ start :: statuses
  ∧ ∀ x, x ∈ start :: statuses → min_status start statuses ≤ x.
Proof.
  unfold min_status. induction statuses as [|h hs [IHin IHle]]; simpl.
  - split; [left|]. intros x Hx. apply list_elem_of_singleton in Hx. lia.
  - split.
    + destruct (Z.min_spec h (foldr Z.min start hs)) as [[_ ->]|[_ ->]].
      * right. left.
      * apply elem_of_cons in IHin as [->|Hin]; [left|]. right. by right.
    + intros x Hx. assert (Hx' : x = h ∨ x ∈ start :: hs).
      { apply elem_of_cons in Hx as [->|Hx]; [right; left|].
        apply elem_of_cons in Hx as [->|Hx]; [by left|right; by right]. }
      destruct Hx' as [->|Hx']; [lia|]. specialize (IHle x Hx'). lia.
Qed.

Lemma get_labourer_status_loop_app health before rest s :
  get_labourer_status_loop make_hash health (before ++ rest) s
  = match get_labourer_status_loop make_hash health before s with
    | (Ok health', s') => get_labourer_status_loop make_hash health' rest s'
    | (Raise e, s') => (Raise e, s')
    end.
Proof.
  revert health s. induction before as [|m before IH]; intros health s; simpl.
  - done.
  - rewrite !bind_run.
    destruct (metric_value make_hash m s) as [[v|e] s1]; [|done].
    rewrite !bind_run. unfold lift.
    destruct (get_health v m) as [h|e]; [|done]. apply IH.
Qed.

(** *** Registration *)

Lemma register_task_manager_state tm s :
  register_task_manager tm s
  = (Ok (), {| self := {| running_tasks := ∅; health_metrics := Some ∅;
                          task_client := Some tm;
                          cloudwatch_client := cloudwatch_client (self s) |};
               trace := trace s |}).
Proof. done. Qed.

Lemma count_running_tasks_unregistered labourer s :
  task_client (self s) = None →
  count_running_tasks_for_labourer labourer s = (Raise RuntimeError, s).
Proof. intros H. run_M. by rewrite H. Qed.

Lemma count_running_tasks_cached labourer s tm n :
  task_client (self s) = Some tm →
  running_tasks (self s) !! Labourer.id labourer = Some n →
  count_running_tasks_for_labourer labourer s = (Ok n, s).
Proof.
  intros Htm Hn. run_M. rewrite Htm. simpl.
  rewrite bool_decide_eq_false_2 by congruence. simpl. by rewrite Hn.
Qed.

Lemma count_running_tasks_fresh labourer s tm :
  task_client (self s) = Some tm →
  running_tasks (self s) !! Labourer.id labourer = None →
  let n := get_count_of_running_tasks_for_labourer tm (trace s) labourer in
  count_running_tasks_for_labourer labourer s
  = (Ok n,
     {| self := set_running_tasks
                  (<[Labourer.id labourer := n]> (running_tasks (self s))) (self s);
        trace := trace s ++ [GetCountOfRunningTasks (Labourer.id labourer)] |}).
Proof.
  intros Htm Hn. run_M. rewrite Htm. simpl.
  rewrite bool_decide_eq_true_2 by done. simpl. by rewrite lookup_insert_eq.
Qed.

Lemma average_duration_unregistered labourer s :
  task_client (self s) = None →
  get_labourer_average_duration labourer s = (Raise RuntimeError, s).
Proof. intros H. run_M. by rewrite H. Qed.

Lemma average_duration_registered labourer s tm :
  task_client (self s) = Some tm →
  get_labourer_average_duration labourer s
  = (Ok (get_average_labourer_duration tm (trace s) labourer),
     {| self := self s;
        trace := trace s ++ [GetAverageLabourerDuration (Labourer.id labourer)] |}).
Proof. intros H. run_M. by rewrite H. Qed.

(** *** What a request that is not a registration leaves in place *)

Lemma metric_value_task_client m s :
  task_client (self (metric_value make_hash m s).2) = task_client (self s).
Proof.
  destruct (health_metrics (self s)) as [cache|] eqn:Hc.
  - destruct (cache !! make_hash (details m)) as [v|] eqn:Hv.
    + by rewrite (metric_value_hit _ _ _ _ Hc Hv).
    + by rewrite (metric_value_miss _ _ _ Hc Hv).
  - by rewrite (metric_value_unregistered _ _ Hc).
Qed.

Lemma get_labourer_status_loop_task_client health metrics s :
  task_client (self (get_labourer_status_loop make_hash health metrics s).2)
  = task_client (self s).
Proof.
  revert health s. induction metrics as [|m rest IH]; intros health s; simpl.
  - done.
  - unfold mbind, M_bind at 1. pose proof (metric_value_task_client m s) as Hm.
    destruct (metric_value make_hash m s) as [[v|e] s1]; [|done].
    unfold mbind, M_bind at 1. unfold lift.
    destruct (get_health v m) as [h|e]; [|done].
    rewrite IH. done.
Qed.

Lemma count_running_tasks_task_client labourer s :
  task_client (self (count_running_tasks_for_labourer labourer s).2)
  = task_client (self s).
Proof.
  destruct (task_client (self s)) as [tm|] eqn:Htm.
  - destruct (running_tasks (self s) !! Labourer.id labourer) as [n|] eqn:Hn.
    + by rewrite (count_running_tasks_cached _ _ _ _ Htm Hn).
    + by rewrite (count_running_tasks_fresh _ _ _ Htm Hn).
  - by rewrite (count_running_tasks_unregistered _ _ Htm).
Qed.

Lemma serve_task_client r s :
  task_client (self (serve make_hash r s))
  = match r with
    | RegisterTaskManager tm => Some tm
    | _ => task_client (self s)
    end.
Proof.
  destruct r as [tm|l|l|l c|l|l|kw]; simpl.
  - done.
  - apply get_labourer_status_loop_task_client.
  - apply count_running_tasks_task_client.
  - unfold add_running_tasks_for_labourer, mbind, M_bind.
    pose proof (count_running_tasks_task_client l s) as Hc.
    destruct (count_running_tasks_for_labourer l s) as [[n|e] s1]; done.
  - destruct (task_client (self s)) as [tm|] eqn:Htm.
    + by rewrite (average_duration_registered _ _ _ Htm).
    + by rewrite (average_duration_unregistered _ _ Htm).
  - done.
  - done.
Qed.

(** A task manager is registered exactly when a registration was served. *)
Lemma serve_all_task_client rs s :
  task_client (self (serve_all make_hash rs s)) = None
  ↔ task_client (self s) = None ∧ existsb is_register rs = false.
Proof.
  unfold serve_all. revert s. induction rs as [|r rs IH]; intros s; simpl.
  - tauto.
  - rewrite IH, serve_task_client. destruct r; simpl; try tauto.
    split; [intros [[=] _]|intros [_ [=]]].
Qed.

(** Before any registration the manager has the attributes of the class. *)
Lemma serve_unregistered r s cw :
  self s = new_manager cw → is_register r = false →
  self (serve make_hash r s) = new_manager cw.
Proof.
  intros Hs Hr. destruct r as [tm|l|l|l c|l|l|kw]; simpl in *; try done.
  - unfold get_labourer_status.
    destruct (labourer_metrics l) as [|m rest]; [done|]. simpl.
    unfold mbind, M_bind at 1.
    rewrite metric_value_unregistered; [done|by rewrite Hs].
  - rewrite count_running_tasks_unregistered; [done|by rewrite Hs].
  - unfold add_running_tasks_for_labourer, mbind, M_bind.
    rewrite count_running_tasks_unregistered; [done|by rewrite Hs].
  - rewrite average_duration_unregistered; [done|by rewrite Hs].
Qed.

Lemma serve_all_unregistered rs s cw :
  self s = new_manager cw → existsb is_register rs = false →
  self (serve_all make_hash rs s) = new_manager cw.
Proof.
  unfold serve_all. revert s. induction rs as [|r rs IH]; intros s Hs Hrs; simpl in *.
  - done.
  - apply orb_false_iff in Hrs as [Hr Hrs].
    apply IH; [|done]. by apply serve_unregistered.
Qed.

End ManagerProofs.

(** ** The claims on the ecology manager *)

Lemma ordered_feelings_ge_10_20_30 :
  ordered_feelings (feelings metric_ge_10_20_30) = [(2, 30); (1, 20); (0, 10)].
Proof. vm_compute. reflexivity. Qed.

Lemma ordered_feelings_le_25_50 :
  ordered_feelings (feelings metric_le_25_50) = [(4, 25); (3, 50)].
Proof. vm_compute. reflexivity. Qed.

(** What [get_health] returns. With feelings [{0:10, 1:20, 2:30}] and [>=]
    the walk starts at eco status 2, where [30 >= 0] holds, so [get_health]
    raises for every sample. In general [get_health] returns [h] exactly
    when the walk meets no threshold whose order check holds up to the first
    step whose threshold the sample satisfies, [h] being the eco status of
    that step, or when no step is satisfied, no order check holds and [h] is
    0. *)
Lemma get_health_first_satisfied :
  (∀ value, get_health value metric_ge_10_20_30 = Raise ValueError)
  ∧ ∀ value metric h,
      let o := feeling_comparison_operator metric in
      let items := ordered_feelings (feelings metric) in
      get_health value metric = Ok h
      ↔ (∃ i target, items !! i = Some (h, target) ∧ op o value target = true
           ∧ (∀ j, (j < i)%nat → ¬ sample_satisfies_at o value items j)
           ∧ (∀ j, (j ≤ i)%nat → ¬ order_check_holds_at o 0 items j))
        ∨ (h = 0 ∧ (∀ j, ¬ sample_satisfies_at o value items j)
                 ∧ (∀ j, ¬ order_check_holds_at o 0 items j)).
Proof.
  split.
  - intros value. unfold get_health. rewrite ordered_feelings_ge_10_20_30. done.
  - intros value metric h. apply get_health_loop_returns.
Qed.

(** C1 does not hold of the code. With feelings [{0:10, 1:20, 2:30}] and
    [>=] the samples 25, 35 and 5 raise a [ValueError] where C1 has the
    statuses 1, 2 and 0. The error comes from the seed [last_target = 0]
    alone: the first step compares the threshold 30 of the highest status
    with the seed, and [30 >= 0] holds, while the order check holds between
    no two consecutive thresholds, and the same walk started from a
    [last_target] above 30 returns 1, 2 and 0. The seed rejects every [>=]
    metric whose highest status has a threshold that is not negative,
    whatever the sample. *)
Theorem get_health_ge_10_20_30_raises :
  (get_health 25 metric_ge_10_20_30 = Raise ValueError
   ∧ get_health 35 metric_ge_10_20_30 = Raise ValueError
   ∧ get_health 5 metric_ge_10_20_30 = Raise ValueError)
  ∧ (op Ge 30 0 = true ∧ op Ge 20 30 = false ∧ op Ge 10 20 = false)
  ∧ (get_health_loop Ge 25 31 (ordered_feelings (feelings metric_ge_10_20_30))
       = Ok 1
     ∧ get_health_loop Ge 35 31 (ordered_feelings (feelings metric_ge_10_20_30))
       = Ok 2
     ∧ get_health_loop Ge 5 31 (ordered_feelings (feelings metric_ge_10_20_30))
       = Ok 0)
  ∧ ∀ value metric health target rest,
      feeling_comparison_operator metric = Ge →
      ordered_feelings (feelings metric) = (health, target) :: rest →
      0 ≤ target →
      get_health value metric = Raise ValueError.
Proof.
  split; [repeat split; vm_compute; reflexivity|].
  split; [repeat split; vm_compute; reflexivity|].
  split; [repeat split; vm_compute; reflexivity|].
  intros value metric health target rest Ho Hitems Htarget.
  unfold get_health. rewrite Ho, Hitems. simpl.
  destruct (Z.leb_spec 0 target) as [_|Hlt]; [reflexivity|lia].
Qed.

(** A configuration the order check accepts: [<=] with thresholds that grow
    as the eco status falls. *)
Example get_health_le_25_50 :
  get_health 25 metric_le_25_50 = Ok 4
  ∧ get_health 30 metric_le_25_50 = Ok 3
  ∧ get_health 51 metric_le_25_50 = Ok 0.
Proof. repeat split; vm_compute; reflexivity. Qed.

(** C2, as the code has it. [get_health] raises, and then a [ValueError],
    exactly when [op(target, last_target)] holds at a step of the walk that
    no satisfied step precedes; and when [get_health] raises for a metric of
    a labourer, [get_labourer_status] raises the same error and returns no
    status. *)
Theorem get_health_raises_iff_order_check_holds :
  (∀ value metric e,
     let o := feeling_comparison_operator metric in
     let items := ordered_feelings (feelings metric) in
     get_health value metric = Raise e
     ↔ e = ValueError
       ∧ ∃ i, order_check_holds_at o 0 items i
            ∧ ∀ j, (j < i)%nat → ¬ sample_satisfies_at o value items j)
  ∧ (∀ make_hash labourer before m after health s s1 value s2 e,
       labourer_metrics labourer = before ++ m :: after →
       get_labourer_status_loop make_hash max_eco_status before s = (Ok health, s1) →
       metric_value make_hash m s1 = (Ok value, s2) →
       get_health value m = Raise e →
       get_labourer_status make_hash labourer s = (Raise e, s2)).
Proof.
  split.
  - intros value metric e. apply get_health_loop_raises.
  - intros make_hash labourer before m after health s s1 value s2 e
      Hsplit Hbefore Hvalue Hraise.
    unfold get_labourer_status. rewrite Hsplit, get_labourer_status_loop_app.
    rewrite Hbefore. simpl. rewrite bind_run, Hvalue, bind_run.
    unfold lift. by rewrite Hraise.
Qed.

Lemma get_health_raises_iff_order_check_holds_witness :
  (get_labourer_status hash_of_details labourer_bad_second registered_state).1
  = Raise ValueError.
Proof.
  pose proof (proj2 get_health_raises_iff_order_check_holds) as H.
  erewrite (H hash_of_details labourer_bad_second [metric_le_25_50]
              metric_ge_10_20_30 [] 3 registered_state _ 31 _ ValueError).
  - reflexivity.
  - reflexivity.
  - vm_compute. reflexivity.
  - vm_compute. reflexivity.
  - vm_compute. reflexivity.
Defined.

(** C2 fails as stated: for [<=] with feelings [{3:50, 4:25}] the check
    [op(target, last_target)] fails to hold at both steps of the walk, and
    [get_health] raises nothing. *)
Lemma get_health_order_check_fails_no_error :
  ordered_feelings (feelings metric_le_25_50) = [(4, 25); (3, 50)]
  ∧ op Le 25 0 = false ∧ op Le 50 25 = false
  ∧ get_health 60 metric_le_25_50 = Ok 0.
Proof. repeat split; vm_compute; reflexivity. Qed.

(** C6. [get_labourer_status] is the minimum of the maximal eco status 4 and
    the statuses of the metrics of the labourer, and it raises when the
    status of a metric does; metrics with statuses 3 and 1 give 1; a
    labourer with no metrics has status 4. *)
Theorem get_labourer_status_minimum :
  max_eco_status = 4
  ∧ (∀ make_hash labourer s,
       get_labourer_status make_hash labourer s
       = match metric_statuses make_hash (labourer_metrics labourer) s with
         | (Ok statuses, s') => (Ok (min_status 4 statuses), s')
         | (Raise e, s') => (Raise e, s')
         end)
  ∧ (∀ statuses,
       min_status 4 statuses ∈ 4 :: statuses
       ∧ ∀ x, x ∈ 4 :: statuses → min_status 4 statuses ≤ x)
  ∧ (metric_statuses hash_of_details (labourer_metrics labourer_two_metrics)
       registered_state).1 = Ok [3; 1]
  ∧ (get_labourer_status hash_of_details labourer_two_metrics registered_state).1
    = Ok 1
  ∧ (∀ make_hash id s,
       get_labourer_status make_hash
         {| Labourer.id := id; Labourer.health_metrics := None |} s = (Ok 4, s)
       ∧ get_labourer_status make_hash
           {| Labourer.id := id; Labourer.health_metrics := Some [] |} s = (Ok 4, s)).
Proof.
  split; [reflexivity|]. split.
  - intros make_hash labourer s. unfold get_labourer_status.
    rewrite get_labourer_status_loop_min.
    destruct (metric_statuses make_hash (labourer_metrics labourer) s)
      as [[statuses|e] s']; [|done].
    by rewrite foldl_min_foldr.
  - split; [apply min_status_least|].
    split; [vm_compute; reflexivity|].
    split; [vm_compute; reflexivity|].
    intros make_hash id s. split; reflexivity.
Qed.

(** C7. With a sample cache in place, a metric whose hash is not in the
    cache is fetched from CloudWatch once and stored under the hash; a
    metric whose hash is in the cache is answered from the cache, with no
    external call and no change of state. So two evaluations of metrics with
    one hash make one CloudWatch call, and both see the same sample. *)
Theorem metric_sample_fetched_once :
  ∀ make_hash m m' s cache,
    health_metrics (self s) = Some cache →
    make_hash (details m') = make_hash (details m) →
    (cache !! make_hash (details m) = None →
       let v := get_metric_statistics (cloudwatch_client (self s)) (trace s)
                  (details m) in
       let s1 := (metric_value make_hash m s).2 in
       (metric_value make_hash m s).1 = Ok v
       ∧ health_metrics (self s1) = Some (<[make_hash (details m) := v]> cache)
       ∧ trace s1 = trace s ++ [GetMetricStatistics (details m)]
       ∧ metric_value make_hash m' s1 = (Ok v, s1)
       ∧ metric_fetches (trace (metric_value make_hash m' s1).2)
         = S (metric_fetches (trace s)))
    ∧ (∀ v, cache !! make_hash (details m) = Some v →
         metric_value make_hash m s = (Ok v, s)
         ∧ metric_value make_hash m' s = (Ok v, s)).
Proof.
  intros make_hash m m' s cache Hcache Hhash. split.
  - intros Hmiss v s1. subst v s1.
    rewrite (metric_value_miss _ _ _ _ Hcache Hmiss). simpl.
    repeat split.
    + rewrite (metric_value_hit make_hash m' _
                 (<[make_hash (details m) :=
                      get_metric_statistics (cloudwatch_client (self s)) (trace s)
                        (details m)]> cache)
                 (get_metric_statistics (cloudwatch_client (self s)) (trace s)
                    (details m))); [done|done|].
      rewrite Hhash. apply lookup_insert_eq.
    + rewrite (metric_value_hit make_hash m' _
                 (<[make_hash (details m) :=
                      get_metric_statistics (cloudwatch_client (self s)) (trace s)
                        (details m)]> cache)
                 (get_metric_statistics (cloudwatch_client (self s)) (trace s)
                    (details m))); [|done|rewrite Hhash; apply lookup_insert_eq].
      simpl. rewrite metric_fetches_app.
      change (metric_fetches [GetMetricStatistics (details m)]) with 1%nat. lia.
  - intros v Hhit. split.
    + by apply (metric_value_hit _ _ _ cache).
    + apply (metric_value_hit _ _ _ cache); [done|]. by rewrite Hhash.
Qed.

Lemma metric_sample_fetched_once_witness :
  (metric_value hash_of_details metric_le_25_50 registered_state).1 = Ok 30
  ∧ metric_fetches
      (trace (metric_value hash_of_details metric_le_25_50
                (metric_value hash_of_details metric_le_25_50 registered_state).2).2)
    = 1%nat.
Proof.
  destruct (metric_sample_fetched_once hash_of_details metric_le_25_50
              metric_le_25_50 registered_state ∅ eq_refl eq_refl) as [Hmiss _].
  destruct (Hmiss eq_refl) as (Hv & _ & _ & _ & Hn).
  split; [exact Hv|exact Hn].
Defined.

(** C8. [register_task_manager] returns, sets the task manager, and leaves
    both caches empty; the next count of running tasks and the next metric
    sample are asked from the task manager and from CloudWatch. *)
Theorem register_task_manager_resets_caches :
  ∀ make_hash task_manager s labourer m,
    let s' := (register_task_manager task_manager s).2 in
    (register_task_manager task_manager s).1 = Ok ()
    ∧ task_client (self s') = Some task_manager
    ∧ running_tasks (self s') = ∅
    ∧ health_metrics (self s') = Some ∅
    ∧ trace s' = trace s
    ∧ (count_running_tasks_for_labourer labourer s').1
      = Ok (get_count_of_running_tasks_for_labourer task_manager (trace s) labourer)
    ∧ trace (count_running_tasks_for_labourer labourer s').2
      = trace s ++ [GetCountOfRunningTasks (Labourer.id labourer)]
    ∧ (metric_value make_hash m s').1
      = Ok (get_metric_statistics (cloudwatch_client (self s)) (trace s) (details m))
    ∧ trace (metric_value make_hash m s').2
      = trace s ++ [GetMetricStatistics (details m)].
Proof.
  intros make_hash tm s labourer m s'. subst s'.
  rewrite register_task_manager_state. simpl.
  rewrite count_running_tasks_fresh with (tm := tm)
    by first [reflexivity | apply lookup_empty].
  rewrite metric_value_miss with (cache := ∅)
    by first [reflexivity | apply lookup_empty].
  done.
Qed.

(** C9. After any sequence of calls on a new manager,
    [count_running_tasks_for_labourer] and [get_labourer_average_duration]
    raise exactly when no [register_task_manager] is among the calls; with a
    task manager registered they return the cached count, or the count the
    task manager gives when none is cached, and the duration the task
    manager gives. *)
Theorem queries_raise_iff_unregistered :
  ∀ make_hash cw requests labourer,
    let s := serve_all make_hash requests (initial cw) in
    (is_ok (count_running_tasks_for_labourer labourer s).1 = false
     ↔ existsb is_register requests = false)
    ∧ (is_ok (get_labourer_average_duration labourer s).1 = false
       ↔ existsb is_register requests = false)
    ∧ match task_client (self s) with
      | None =>
          count_running_tasks_for_labourer labourer s = (Raise RuntimeError, s)
          ∧ get_labourer_average_duration labourer s = (Raise RuntimeError, s)
      | Some tm =>
          (count_running_tasks_for_labourer labourer s).1
          = Ok (match running_tasks (self s) !! Labourer.id labourer with
                | Some n => n
                | None => get_count_of_running_tasks_for_labourer tm (trace s) labourer
                end)
          ∧ (get_labourer_average_duration labourer s).1
            = Ok (get_average_labourer_duration tm (trace s) labourer)
      end.
Proof.
  intros make_hash cw requests labourer s.
  pose proof (serve_all_task_client make_hash requests (initial cw)) as Hreg.
  fold s in Hreg. simpl in Hreg.
  destruct (task_client (self s)) as [tm|] eqn:Htm.
  - assert (Hsome : existsb is_register requests = false → False).
    { intros H. destruct Hreg as [_ Hreg]. discriminate Hreg. by split. }
    rewrite (average_duration_registered _ _ _ Htm).
    destruct (running_tasks (self s) !! Labourer.id labourer) as [n|] eqn:Hn.
    + rewrite (count_running_tasks_cached _ _ _ _ Htm Hn). simpl.
      repeat split; try done; intros H; by destruct (Hsome H).
    + rewrite (count_running_tasks_fresh _ _ _ Htm Hn). simpl.
      repeat split; try done; intros H; by destruct (Hsome H).
  - rewrite (count_running_tasks_unregistered _ _ Htm).
    rewrite (average_duration_unregistered _ _ Htm). simpl.
    assert (existsb is_register requests = false) by (by apply Hreg).
    repeat split; done.
Qed.

(** C10. Until [register_task_manager] is called the sample cache is
    [None]: [get_labourer_status] raises a [TypeError] for a labourer with a
    health metric, not the [RuntimeError] of a missing task manager, and
    returns 4 for a labourer with none. *)
Theorem get_labourer_status_before_registration :
  ∀ make_hash cw requests labourer,
    existsb is_register requests = false →
    let s := serve_all make_hash requests (initial cw) in
    health_metrics (self s) = None
    ∧ (labourer_metrics labourer ≠ [] →
         get_labourer_status make_hash labourer s = (Raise TypeError, s))
    ∧ (labourer_metrics labourer = [] →
         get_labourer_status make_hash labourer s = (Ok 4, s)).
Proof.
  intros make_hash cw requests labourer Hreq s.
  assert (Hs : self s = new_manager cw)
    by (by apply serve_all_unregistered).
  split; [by rewrite Hs|]. unfold get_labourer_status. split.
  - destruct (labourer_metrics labourer) as [|m rest]; [done|]. intros _.
    simpl. rewrite bind_run, metric_value_unregistered; [done|by rewrite Hs].
  - intros ->. done.
Qed.

Lemma get_labourer_status_before_registration_witness :
  get_labourer_status hash_of_details labourer_two_metrics
    (serve_all hash_of_details [CountRunningTasks labourer_two_metrics]
       (initial cloudwatch_growing))
  = (Raise TypeError,
     serve_all hash_of_details [CountRunningTasks labourer_two_metrics]
       (initial cloudwatch_growing))
  ∧ get_labourer_status hash_of_details labourer_no_metrics
      (serve_all hash_of_details [CountRunningTasks labourer_two_metrics]
         (initial cloudwatch_growing))
    = (Ok 4,
       serve_all hash_of_details [CountRunningTasks labourer_two_metrics]
         (initial cloudwatch_growing)).
Proof.
  split.
  - apply (get_labourer_status_before_registration hash_of_details
             cloudwatch_growing [CountRunningTasks labourer_two_metrics]
             labourer_two_metrics eq_refl).
    discriminate.
  - apply (get_labourer_status_before_registration hash_of_details
             cloudwatch_growing [CountRunningTasks labourer_two_metrics]
             labourer_no_metrics eq_refl).
    reflexivity.
Defined.

(** * Properties of the configuration resolver *)

Example ssm_get_config_examples :
  SSMConfig.get_config json_scalar (ssm_of_store ssm_store) ssm_adapter "limits"
  = Ok (PyInt 42)
  ∧ SSMConfig.get_config json_scalar (ssm_of_store ssm_store) ssm_adapter "missing"
    = Ok (PyDict []).
Proof. split; vm_compute; reflexivity. Qed.

Example dynamo_get_config_examples :
  (DynamoConfig.get_config json_scalar ∅ dynamo_tables dynamo_adapter
     "limits" "production").1 = Ok (PyInt 42)
  ∧ (DynamoConfig.get_config json_scalar ∅ dynamo_tables dynamo_adapter
       "db_host" "production").1 = Ok (PyStr "example.org")
  ∧ (DynamoConfig.get_config json_scalar ∅ dynamo_tables dynamo_adapter
       "missing" "production").1 = Ok (PyDict []).
Proof. repeat split; vm_compute; reflexivity. Qed.

Example ssm_get_credentials_example :
  SSMConfig.get_credentials_by_prefix (ssm_of_store ssm_store) 1 ssm_adapter "db"
  = Done (Ok {[ "host" := PyStr "example.org"; "password" := PyNone ]}).
Proof. vm_compute. reflexivity. Qed.

(** ** [get_config] *)

(** C3, as the code has it. On the Dynamo backend [get_config] never raises:
    it returns the decoded value when the stored text is JSON, the stored
    text when it is not, and an empty mapping when no row has the name. On
    the SSM backend it returns the decoded value when the stored text is
    JSON and an empty mapping when the response holds no parameter; the raw
    text is never returned there. *)
Theorem get_config_parsed_or_fallback :
  (∀ json_decode environ tables self name env,
     let call := DynamoConfig.get_config json_decode environ tables self name env in
     ∃ client, DynamoConfig.dynamo_client call.2 = Some client
       ∧ match head (DynamoDbClient.get_by_query tables client env name false) with
         | None => call.1 = Ok (PyDict [])
         | Some row =>
             call.1 = Ok (match json_decode (DynamoDbClient.config_value row) with
                          | Some v => v
                          | None => PyStr (DynamoDbClient.config_value row)
                          end)
         end)
  ∧ (∀ json_decode ssm_client self name,
       match ssm_get_parameters_response ssm_client name with
       | Raise e => SSMConfig.get_config json_decode ssm_client self name = Raise e
       | Ok response =>
           match SSMConfig.Parameters response with
           | [] => SSMConfig.get_config json_decode ssm_client self name = Ok (PyDict [])
           | p :: _ =>
               match json_decode (SSMConfig.Value p) with
               | Some v => SSMConfig.get_config json_decode ssm_client self name = Ok v
               | None =>
                   SSMConfig.get_config json_decode ssm_client self name
                   ≠ Ok (PyStr (SSMConfig.Value p))
               end
           end
       end).
Proof.
  split.
  - intros json_decode environ tables self name env call. subst call.
    unfold DynamoConfig.get_config.
    destruct (DynamoConfig._get_dynamo_client self) as [client self'].
    eexists. split; [reflexivity|]. simpl.
    destruct (head _) as [row|]; simpl; [|done].
    by destruct (json_decode (DynamoDbClient.config_value row)).
  - intros json_decode ssm_client self name.
    unfold SSMConfig.get_config, ssm_get_parameters_response.
    destruct (try_except _ _ _) as [response|e]; [|done].
    unfold SSMConfig.first_value.
    destruct (SSMConfig.Parameters response) as [|p rest]; [done|]. simpl.
    destruct (json_decode (SSMConfig.Value p)); [done|]. simpl. discriminate.
Qed.

(** C3 fails as stated: on the SSM backend a stored text that is not JSON
    makes [get_config] raise the error of the decoder; the raw text is not
    returned. *)
Lemma ssm_get_config_raises_on_plain_text :
  json_scalar "hello" = None
  ∧ SSMConfig.get_config json_scalar (ssm_of_store ssm_store) ssm_adapter "greeting"
    = Raise JSONDecodeError.
Proof. split; vm_compute; reflexivity. Qed.

(** Whatever the decoder, a text it rejects makes [SSMConfig.get_config]
    raise. *)
Lemma ssm_get_config_undecodable json_decode ssm_client self name response p rest :
  ssm_get_parameters_response ssm_client name = Ok response →
  SSMConfig.Parameters response = p :: rest →
  json_decode (SSMConfig.Value p) = None →
  SSMConfig.get_config json_decode ssm_client self name = Raise JSONDecodeError.
Proof.
  unfold SSMConfig.get_config, ssm_get_parameters_response.
  intros -> Hp Hd. unfold SSMConfig.first_value. rewrite Hp. simpl. by rewrite Hd.
Qed.

(** ** The test flag of [ConfigSource] *)

Lemma add_sources_test environ self sources cs :
  ConfigSource.add_sources environ self sources = Ok cs →
  ConfigSource.test cs = ConfigSource.test self.
Proof.
  revert self. induction sources as [|source rest IH]; intros self; simpl.
  - by intros [= ->].
  - destruct (ConfigSource.add_source environ self source) as [self'|e] eqn:Hadd;
      [|done].
    intros H. rewrite (IH _ H). unfold ConfigSource.add_source in Hadd.
    destruct (String.eqb source "Dynamo"); [by injection Hadd as <-|].
    destruct (String.eqb source "SSM"); [by injection Hadd as <-|]. done.
Qed.

(** C4 does not hold of the code. A [ConfigSource] built with [test=True] in
    an environment without [STAGE] is not in test mode, and neither are the
    adapters it builds; in every environment the mode of the resolver is
    that of [STAGE], whatever the flag. *)
Theorem config_source_test_flag_dropped :
  match ConfigSource.init ∅ true (ConfigSource.SourcesStr "Dynamo,SSM") None with
  | Ok cs =>
      ConfigSource.test cs = false
      ∧ DynamoConfig.test <$> ConfigSource.dynamo_config cs = Some false
      ∧ SSMConfig.test <$> ConfigSource.ssm_config cs = Some false
      ∧ SecretsManager.test <$> ConfigSource.secrets_manager_class cs = Some false
  | Raise _ => False
  end
  ∧ ∀ environ test sources config,
      match ConfigSource.init environ test sources config with
      | Ok cs => ConfigSource.test cs = stage_is_test environ
      | Raise _ => True
      end.
Proof.
  split; [vm_compute; done|].
  intros environ test sources config. unfold ConfigSource.init.
  destruct (if ConfigSource.not_sources sources then _ else _) as [names|e]; [|done].
  destruct (negb _); [done|].
  destruct (ConfigSource.add_sources _ _ _) as [cs|e] eqn:Hadd; [|done].
  simpl. rewrite (add_sources_test _ _ _ _ Hadd). simpl.
  destruct (stage_is_test environ); [by destruct test|done].
Qed.

(** The adapters themselves keep the flag. *)
Example adapters_keep_test_flag :
  SSMConfig.test (SSMConfig.init ∅ true) = true
  ∧ DynamoConfig.test (DynamoConfig.init ∅ true None) = true
  ∧ SecretsManager.test (SecretsManager.init ∅ true) = true.
Proof. repeat split. Qed.

(** ** Credentials by prefix *)










(** ** Pagination *)

Lemma pagination_loop_out_of_fuel ssm_client f kw response token acc fuel :
  SSMConfig.NextToken response = Some token →
  (∀ kw', is_ok (SSMConfig.call ssm_client f kw') = true) →
  SSMConfig.pagination_loop ssm_client f kw response acc fuel = OutOfFuel.
Proof.
  intros Htoken Hcall. revert kw acc.
  induction fuel as [|fuel IH]; intros kw acc; simpl; rewrite Htoken; [done|].
  specialize (Hcall (SSMConfig.with_token token kw)).
  destruct (SSMConfig.call ssm_client f (SSMConfig.with_token token kw)); [|done].
  apply IH.
Qed.

(** The manual pagination rebinds nothing but the keyword arguments: when
    the first page carries a [NextToken] and the calls keep returning, the
    loop does not end, whatever the fuel. *)
Theorem manual_pagination_never_returns :
  ∀ ssm_client f kw response token fuel,
    SSMConfig.can_paginate ssm_client f = false →
    SSMConfig.call ssm_client f kw = Ok response →
    SSMConfig.NextToken response = Some token →
    (∀ kw', is_ok (SSMConfig.call ssm_client f kw') = true) →
    SSMConfig.call_boto_with_pagination ssm_client fuel f kw = OutOfFuel.
Proof.
  intros ssm_client f kw response token fuel Hcan Hfirst Htoken Hcall.
  unfold SSMConfig.call_boto_with_pagination. rewrite Hcan, Hfirst.
  by apply pagination_loop_out_of_fuel with (token := token).
Qed.

Lemma manual_pagination_never_returns_witness :
  SSMConfig.call_boto_with_pagination ssm_endless 1000 "get_parameters"
    (SSMConfig.GetParameters ["db_host"] true None) = OutOfFuel.
Proof.
  apply (manual_pagination_never_returns ssm_endless "get_parameters" _
           {| SSMConfig.Parameters := []; SSMConfig.NextToken := Some "more" |}
           "more" 1000%nat); reflexivity.
Defined.

(** With a client that paginates natively, or whose pages carry no
    [NextToken], the pagination returns with any fuel. *)
Lemma call_boto_with_pagination_returns ssm_client fuel f kw :
  (SSMConfig.can_paginate ssm_client f = true
   ∧ is_ok (SSMConfig.paginate ssm_client f kw) = true)
  ∨ (SSMConfig.can_paginate ssm_client f = false
     ∧ ∃ response, SSMConfig.call ssm_client f kw = Ok response
                   ∧ SSMConfig.NextToken response = None) →
  ∃ pages, SSMConfig.call_boto_with_pagination ssm_client fuel f kw = Done (Ok pages).
Proof.
  unfold SSMConfig.call_boto_with_pagination.
  intros [[-> Hok]|[-> (response & -> & Htoken)]].
  - destruct (SSMConfig.paginate ssm_client f kw) as [pages|e]; [by eexists|done].
  - exists [response]. destruct fuel; simpl; by rewrite Htoken.
Qed.

Lemma get_chunks_returns ssm_client fuel prefix dec chunks_of_names acc :
  (∀ chunk, ∃ pages,
     SSMConfig.call_boto_with_pagination ssm_client fuel "get_parameters"
       (SSMConfig.GetParameters chunk dec None) = Done (Ok pages)) →
  ∃ result,
    SSMConfig.get_chunks ssm_client fuel prefix dec chunks_of_names acc
    = Done (Ok result).
Proof.
  intros Hcall. revert acc.
  induction chunks_of_names as [|chunk rest IH]; intros acc; simpl.
  - by eexists.
  - destruct (Hcall chunk) as [pages ->]. unfold mbind, outcome_bind at 1. apply IH.
Qed.

(** [SSMConfig.get_credentials_by_prefix] returns whenever the paginated
    calls it makes return. *)
Lemma ssm_get_credentials_by_prefix_returns ssm_client fuel self prefix :
  (∀ f kw, ∃ pages,
     SSMConfig.call_boto_with_pagination ssm_client fuel f kw = Done (Ok pages)) →
  ∃ result,
    SSMConfig.get_credentials_by_prefix ssm_client fuel self prefix
    = Done (Ok result).
Proof.
  intros Hcall. unfold SSMConfig.get_credentials_by_prefix.
  destruct (Hcall "describe_parameters"
              (SSMConfig.DescribeParameters
                 (SSMConfig.prefix_filters
                    (if negb (SSMConfig.test self) then "production" else "dev")
                    (if endswith prefix "_" then prefix else prefix +:+ "_"))
                 None)) as [pages ->].
  unfold mbind, outcome_bind at 1.
  destruct (map SSMConfig.Name (SSMConfig.all_parameters pages)); [by eexists|].
  apply get_chunks_returns. intros chunk. apply Hcall.
Qed.

(** The groups of [chunks] hold at most [n] names each and together hold the
    names, in order. *)
Lemma chunks_upto_spec {A} fuel (l : list A) n :
  (0 < n)%nat → (length l ≤ fuel)%nat →
  concat (chunks_upto fuel l n) = l
  ∧ Forall (λ chunk, (length chunk ≤ n)%nat) (chunks_upto fuel l n).
Proof.
  intros Hn. revert l. induction fuel as [|fuel IH]; intros l Hl.
  - destruct l; [|simpl in Hl; lia]. split; [done|constructor].
  - destruct l as [|a l]; [split; [done|constructor]|].
    change (chunks_upto (S fuel) (a :: l) n)
      with (take n (a :: l) :: chunks_upto fuel (drop n (a :: l)) n).
    destruct (IH (drop n (a :: l))) as [Hconcat Hall].
    { rewrite length_drop. simpl in *. lia. }
    split.
    + simpl concat. rewrite Hconcat. apply take_drop.
    + constructor; [|done]. rewrite length_take. lia.
Qed.

Lemma chunks_spec {A} (l : list A) n :
  (0 < n)%nat →
  concat (chunks l n) = l ∧ Forall (λ chunk, (length chunk ≤ n)%nat) (chunks l n).
Proof. intros Hn. by apply chunks_upto_spec. Qed.

(** * Further properties of the ecology manager *)

(** ** The status of a metric *)

Lemma get_health_range value metric h :
  get_health value metric = Ok h → h = 0 ∨ is_Some (feelings metric !! h).
Proof.
  intros H. apply get_health_loop_returns in H as [(i & t & Hi & _)|[-> _]];
    [right|by left].
  exists t. apply ordered_feelings_elem. apply list_elem_of_lookup. by exists i.
Qed.

Lemma strongly_sorted_lookup {A} (R : relation A) (l : list A) i j x y :
  StronglySorted R l → (i < j)%nat → l !! i = Some x → l !! j = Some y → R x y.
Proof.
  intros Hs. revert i j. induction Hs as [|a l Hs IH Hall]; intros i j Hij Hi Hj.
  - discriminate.
  - destruct j as [|j]; [lia|]. simpl in Hj. destruct i as [|i].
    + injection Hi as <-. rewrite Forall_forall in Hall. apply Hall.
      apply list_elem_of_lookup. by exists j.
    + simpl in Hi. apply (IH i j); [lia|done|done].
Qed.

Lemma ordered_feelings_lookup_lt f i j h t h' t' :
  (i < j)%nat →
  ordered_feelings f !! i = Some (h, t) →
  ordered_feelings f !! j = Some (h', t') →
  h' < h.
Proof.
  intros Hij Hi Hj.
  apply (strongly_sorted_lookup (λ a b : Z, b < a) (map fst (ordered_feelings f)) i j).
  - rewrite ordered_feelings_keys. apply ordered_feelings_keys_sorted.
  - done.
  - by rewrite list_lookup_fmap, Hi.
  - by rewrite list_lookup_fmap, Hj.
Qed.

(** A sample that satisfies more thresholds gets a status that is no worse. *)
Lemma get_health_more_satisfied value value' metric h h' :
  (∀ target, op (feeling_comparison_operator metric) value' target = true →
             op (feeling_comparison_operator metric) value target = true) →
  (∀ key, is_Some (feelings metric !! key) → 0 ≤ key) →
  get_health value metric = Ok h →
  get_health value' metric = Ok h' →
  h' ≤ h.
Proof.
  intros Hmore Hkeys H H'.
  assert (Hh : 0 ≤ h).
  { destruct (get_health_range _ _ _ H) as [->|Hin]; [lia|by apply Hkeys]. }
  apply get_health_loop_returns in H, H'.
  destruct H' as [(i' & t' & Hi' & Hop' & Hbefore' & _)|(-> & _)]; [|done].
  assert (Hsat : sample_satisfies_at (feeling_comparison_operator metric) value
                   (ordered_feelings (feelings metric)) i').
  { exists h', t'. split; [done|]. by apply Hmore. }
  destruct H as [(i & t & Hi & Hop & Hbefore & _)|(-> & Hnone & _)].
  - destruct (decide (i' < i)%nat) as [Hlt|Hge].
    + by destruct (Hbefore i' Hlt).
    + destruct (decide (i = i')) as [->|Hne].
      * rewrite Hi in Hi'. injection Hi' as -> _. lia.
      * assert (h' < h); [|lia].
        apply (ordered_feelings_lookup_lt (feelings metric) i i' h t h' t');
          [lia|done|done].
  - by destruct (Hnone i').
Qed.

(** With [<=] or [<] a larger sample never gets a better status, and with
    [>=] or [>] a smaller sample never does, whenever the eco statuses of
    the metric are not negative and both evaluations return. *)
Theorem get_health_monotone :
  ∀ value value' metric h h',
    (∀ key, is_Some (feelings metric !! key) → 0 ≤ key) →
    (lower_is_better (feeling_comparison_operator metric) ∧ value ≤ value'
     ∨ higher_is_better (feeling_comparison_operator metric) ∧ value' ≤ value) →
    get_health value metric = Ok h →
    get_health value' metric = Ok h' →
    h' ≤ h.
Proof.
  intros value value' metric h h' Hkeys Hdir.
  apply get_health_more_satisfied; [|done].
  intros target.
  destruct Hdir as [[[->| ->] Hle]|[[->| ->] Hle]]; unfold op;
    rewrite ?Z.leb_le, ?Z.ltb_lt; lia.
Qed.

Lemma get_health_monotone_witness :
  get_health 30 metric_le_25_50 = Ok 3 ∧ get_health 20 metric_le_25_50 = Ok 4
  ∧ 3 ≤ 4.
Proof.
  assert (H1 : get_health 20 metric_le_25_50 = Ok 4) by (vm_compute; reflexivity).
  assert (H2 : get_health 30 metric_le_25_50 = Ok 3) by (vm_compute; reflexivity).
  split; [exact H2|]. split; [exact H1|].
  apply (get_health_monotone 20 30 metric_le_25_50 4 3); [|left|exact H1|exact H2].
  - intros key [t Ht]. apply ordered_feelings_elem in Ht.
    rewrite ordered_feelings_le_25_50 in Ht.
    apply elem_of_cons in Ht as [[= -> _]|Ht]; [lia|].
    apply elem_of_cons in Ht as [[= -> _]|Ht]; [lia|].
    by apply elem_of_nil in Ht.
  - split; [by left|lia].
Defined.

(** ** The status of a labourer *)

Section StatusProofs.

Variable make_hash : list (string * string) → string.

Lemma get_labourer_status_loop_range health metrics s h s' :
  get_labourer_status_loop make_hash health metrics s = (Ok h, s') →
  h ≤ health
  ∧ (h = health ∨ h = 0 ∨ ∃ m, m ∈ metrics ∧ is_Some (feelings m !! h)).
Proof.
  revert health s. induction metrics as [|m rest IH]; intros health s; simpl.
  - intros [= <- _]. split; [lia|by left].
  - rewrite bind_run.
    destruct (metric_value make_hash m s) as [[v|e] s1]; [|done].
    rewrite bind_run. unfold lift.
    destruct (get_health v m) as [hm|e] eqn:Hm; [|done].
    intros H. destruct (IH _ _ H) as [Hle Hfrom]. split; [lia|].
    destruct Hfrom as [->|[->|(m' & Hin & Hkey)]].
    + destruct (Z.min_spec health hm) as [[_ ->]|[_ ->]]; [by left|].
      destruct (get_health_range _ _ _ Hm) as [->|Hkey]; [right; by left|].
      right. right. exists m. split; [left|done].
    + right. by left.
    + right. right. exists m'. split; [by right|done].
Qed.

Lemma metric_value_included m s :
  cache_included s (metric_value make_hash m s).2.
Proof.
  unfold cache_included.
  destruct (health_metrics (self s)) as [cache|] eqn:Hc.
  - destruct (cache !! make_hash (details m)) as [v|] eqn:Hv.
    + rewrite (metric_value_hit _ _ _ _ _ Hc Hv). by exists cache.
    + rewrite (metric_value_miss _ _ _ _ Hc Hv). simpl. eexists. split; [done|].
      by apply insert_subseteq.
  - by rewrite (metric_value_unregistered _ _ _ Hc).
Qed.

Lemma cache_included_trans s1 s2 s3 :
  cache_included s1 s2 → cache_included s2 s3 → cache_included s1 s3.
Proof.
  unfold cache_included.
  destruct (health_metrics (self s1)) as [c1|].
  - intros (c2 & -> & H12) (c3 & -> & H23). exists c3. split; [done|].
    by transitivity c2.
  - by intros ->.
Qed.

Lemma get_labourer_status_loop_included health metrics s :
  cache_included s (get_labourer_status_loop make_hash health metrics s).2.
Proof.
  revert health s. induction metrics as [|m rest IH]; intros health s; simpl.
  - unfold cache_included. destruct (health_metrics (self s)) as [c|]; [|done].
    by exists c.
  - rewrite bind_run. pose proof (metric_value_included m s) as Hm.
    destruct (metric_value make_hash m s) as [[v|e] s1]; [|done].
    rewrite bind_run. unfold lift.
    destruct (get_health v m) as [h|e]; [|done].
    apply (cache_included_trans _ s1); [done|apply IH].
Qed.




Lemma metric_value_effect m s :
  ∃ calls,
    trace (metric_value make_hash m s).2 = trace s ++ calls
    ∧ Forall (λ c, is_metric_fetch c = true) calls
    ∧ (length calls ≤ 1)%nat
    ∧ running_tasks (self (metric_value make_hash m s).2) = running_tasks (self s)
    ∧ cloudwatch_client (self (metric_value make_hash m s).2)
      = cloudwatch_client (self s).
Proof.
  destruct (health_metrics (self s)) as [cache|] eqn:Hc.
  - destruct (cache !! make_hash (details m)) as [v|] eqn:Hv.
    + rewrite (metric_value_hit _ _ _ _ _ Hc Hv). exists [].
      rewrite app_nil_r. repeat split; simpl; [constructor|lia].
    + rewrite (metric_value_miss _ _ _ _ Hc Hv). simpl.
      exists [GetMetricStatistics (details m)]. repeat split; simpl; [|lia].
      by repeat constructor.
  - rewrite (metric_value_unregistered _ _ _ Hc). exists [].
    rewrite app_nil_r. repeat split; simpl; [constructor|lia].
Qed.

Lemma get_labourer_status_loop_effect health metrics s :
  ∃ calls,
    trace (get_labourer_status_loop make_hash health metrics s).2 = trace s ++ calls
    ∧ Forall (λ c, is_metric_fetch c = true) calls
    ∧ (length calls ≤ length metrics)%nat
    ∧ running_tasks (self (get_labourer_status_loop make_hash health metrics s).2)
      = running_tasks (self s)
    ∧ cloudwatch_client (self (get_labourer_status_loop make_hash health metrics s).2)
      = cloudwatch_client (self s).
Proof.
  revert health s. induction metrics as [|m rest IH]; intros health s; simpl.
  - exists []. rewrite app_nil_r. repeat split; simpl; [constructor|lia].
  - rewrite bind_run.
    destruct (metric_value_effect m s) as (c1 & Ht1 & Hf1 & Hl1 & Hr1 & Hw1).
    destruct (metric_value make_hash m s) as [[v|e] s1]; simpl in *.
    + rewrite bind_run. unfold lift. destruct (get_health v m) as [h|e].
      * destruct (IH (Z.min health h) s1) as (c2 & Ht2 & Hf2 & Hl2 & Hr2 & Hw2).
        exists (c1 ++ c2). rewrite Ht2, Ht1, Hr2, Hr1, Hw2, Hw1, app_assoc.
        repeat split; [by apply Forall_app|rewrite length_app; lia].
      * exists c1. simpl. repeat split; try done. lia.
    + exists c1. repeat split; try done. lia.
Qed.

End StatusProofs.

(** [get_labourer_status] never returns more than 4; what it returns is 4, 0
    or an eco status that a metric of the labourer names, so it is one of
    [ECO_STATUSES] when the metrics name no other status. *)
Theorem get_labourer_status_range :
  ∀ make_hash labourer s h s',
    get_labourer_status make_hash labourer s = (Ok h, s') →
    h ≤ 4
    ∧ (h = 4 ∨ h = 0
       ∨ ∃ m, m ∈ labourer_metrics labourer ∧ is_Some (feelings m !! h))
    ∧ ((∀ m key, m ∈ labourer_metrics labourer → is_Some (feelings m !! key) →
          key ∈ eco_statuses) →
       h ∈ eco_statuses).
Proof.
  intros make_hash labourer s h s' H.
  apply get_labourer_status_loop_range in H as [Hle Hfrom].
  change max_eco_status with 4 in *. split; [done|]. split; [done|].
  intros Hkeys. destruct Hfrom as [->|[->|(m & Hin & Hkey)]].
  - unfold eco_statuses. simpl. repeat constructor.
  - unfold eco_statuses. simpl. repeat constructor.
  - by apply (Hkeys m).
Qed.

Lemma get_labourer_status_range_witness :
  (3 ≤ 4)
  ∧ (3 = 4 ∨ 3 = 0
     ∨ ∃ m, m ∈ labourer_metrics
                  {| Labourer.id := "some_function";
                     Labourer.health_metrics := Some [("cpu", metric_le_25_50)] |}
            ∧ is_Some (feelings m !! 3)).
Proof.
  destruct (get_labourer_status_range hash_of_details
              {| Labourer.id := "some_function";
                 Labourer.health_metrics := Some [("cpu", metric_le_25_50)] |}
              registered_state 3
              (get_labourer_status hash_of_details
                 {| Labourer.id := "some_function";
                    Labourer.health_metrics := Some [("cpu", metric_le_25_50)] |}
                 registered_state).2) as (H1 & H2 & _).
  - vm_compute. reflexivity.
  - split; [exact H1|exact H2].
Defined.


(** [get_labourer_status] touches nothing but the sample cache: the counters
    of running tasks and the task manager stay, a cached sample is never
    replaced, and the external calls it makes are CloudWatch queries, at
    most one per metric of the labourer. *)
Theorem get_labourer_status_frame :
  ∀ make_hash labourer s,
    let s' := (get_labourer_status make_hash labourer s).2 in
    running_tasks (self s') = running_tasks (self s)
    ∧ task_client (self s') = task_client (self s)
    ∧ cache_included s s'
    ∧ ∃ calls,
        trace s' = trace s ++ calls
        ∧ Forall (λ c, is_metric_fetch c = true) calls
        ∧ (length calls ≤ length (labourer_metrics labourer))%nat.
Proof.
  intros make_hash labourer s s'. subst s'. unfold get_labourer_status.
  destruct (get_labourer_status_loop_effect make_hash max_eco_status
              (labourer_metrics labourer) s) as (calls & Ht & Hf & Hl & Hr & _).
  split; [done|].
  split; [apply get_labourer_status_loop_task_client|].
  split; [apply get_labourer_status_loop_included|].
  by exists calls.
Qed.

(** ** The counters of running tasks *)


(** [add_running_tasks_for_labourer] raises without a task manager and
    leaves the manager as it is. With one, it sets the counter of the
    labourer to the count the manager would report, cached or asked from the
    task manager, plus [count]; the manager reports the sum afterwards
    without an external call, and a second addition adds to the first with
    no external call either. *)
Theorem add_running_tasks_adds :
  ∀ labourer count count' s,
    match task_client (self s) with
    | None =>
        add_running_tasks_for_labourer labourer count s = (Raise RuntimeError, s)
    | Some tm =>
        let n := match running_tasks (self s) !! Labourer.id labourer with
                 | Some n => n
                 | None => get_count_of_running_tasks_for_labourer tm (trace s)
                             labourer
                 end in
        let s1 := (add_running_tasks_for_labourer labourer count s).2 in
        let s2 := (add_running_tasks_for_labourer labourer count' s1).2 in
        (add_running_tasks_for_labourer labourer count s).1 = Ok ()
        ∧ running_tasks (self s1)
          = <[Labourer.id labourer := n + count]> (running_tasks (self s))
        ∧ trace s1 = trace (count_running_tasks_for_labourer labourer s).2
        ∧ count_running_tasks_for_labourer labourer s1 = (Ok (n + count), s1)
        ∧ running_tasks (self s2)
          = <[Labourer.id labourer := n + count + count']> (running_tasks (self s))
        ∧ trace s2 = trace s1
    end.
Proof.
  intros labourer count count' s.
  destruct (task_client (self s)) as [tm|] eqn:Htm.
  - unfold add_running_tasks_for_labourer. rewrite !bind_run.
    destruct (running_tasks (self s) !! Labourer.id labourer) as [n|] eqn:Hn.
    + rewrite (count_running_tasks_cached _ _ _ _ Htm Hn). simpl.
      rewrite ?bind_run.
      rewrite (count_running_tasks_cached _ _ tm (n + count));
        [|done|simpl; apply lookup_insert_eq].
      simpl. rewrite insert_insert_eq. repeat split; try done.
      all: apply (count_running_tasks_cached _ _ tm); [done|]; simpl;
        apply lookup_insert_eq.
    + rewrite (count_running_tasks_fresh _ _ _ Htm Hn). simpl.
      rewrite ?bind_run.
      rewrite (count_running_tasks_cached _ _ tm
                 (get_count_of_running_tasks_for_labourer tm (trace s) labourer
                  + count));
        [|done|simpl; apply lookup_insert_eq].
      simpl. rewrite !insert_insert_eq. repeat split; try done.
      all: apply (count_running_tasks_cached _ _ tm); [done|]; simpl;
        apply lookup_insert_eq.
  - unfold add_running_tasks_for_labourer. rewrite bind_run.
    by rewrite (count_running_tasks_unregistered _ _ Htm).
Qed.

(** * Further properties of the configuration resolver *)

(** ** The construction of a [ConfigSource] *)

Lemma supported_spec source :
  supported source = true ↔ source = "Dynamo" ∨ source = "SSM".
Proof.
  unfold supported, ConfigSource.SUPPORTED_SOURCES.
  rewrite bool_decide_eq_true, !elem_of_cons, elem_of_nil. tauto.
Qed.

Lemma add_sources_supported environ self names :
  forallb supported names = true →
  ∃ cs,
    ConfigSource.add_sources environ self names = Ok cs
    ∧ ConfigSource.test cs = ConfigSource.test self
    ∧ ConfigSource.secrets_manager_class cs = ConfigSource.secrets_manager_class self
    ∧ ConfigSource.default_source cs
      = match ConfigSource.default_source self with
        | Some d => Some d
        | None => attribute_of <$> head names
        end
    ∧ (is_Some (ConfigSource.dynamo_config cs)
       ↔ is_Some (ConfigSource.dynamo_config self) ∨ "Dynamo" ∈ names)
    ∧ (is_Some (ConfigSource.ssm_config cs)
       ↔ is_Some (ConfigSource.ssm_config self) ∨ "SSM" ∈ names)
    ∧ (∀ d, ConfigSource.dynamo_config cs = Some d →
         ConfigSource.dynamo_config self = Some d
         ∨ ∃ cfg, d = DynamoConfig.init environ (ConfigSource.test self) cfg)
    ∧ (∀ a, ConfigSource.ssm_config cs = Some a →
         ConfigSource.ssm_config self = Some a
         ∨ a = SSMConfig.init environ (ConfigSource.test self)).
Proof.
  revert self. induction names as [|source rest IH]; intros self Hall.
  - exists self. simpl. repeat split; try done.
    + by destruct (ConfigSource.default_source self).
    + by left.
    + intros [H|H]; [done|by apply elem_of_nil in H].
    + by left.
    + intros [H|H]; [done|by apply elem_of_nil in H].
    + by left.
    + by left.
  - simpl in Hall. apply andb_true_iff in Hall as [Hs Hrest].
    apply supported_spec in Hs. simpl. unfold ConfigSource.add_source.
    destruct Hs as [-> | ->]; simpl.
    + match goal with |- context [ConfigSource.add_sources environ ?self' rest] =>
        destruct (IH self' Hrest) as (cs & -> & Ht & Hsm & Hd & Hdy & Hss & Hdv & Hsv)
      end.
      simpl in *. exists cs. split; [done|]. split; [done|]. split; [done|].
      split; [rewrite Hd; by destruct (ConfigSource.default_source self)|].
      split; [|split; [|split]].
      * rewrite Hdy. split; [intros _; right; left|intros _; left; eauto].
      * rewrite Hss. split.
        -- intros [H|H]; [by left|right; by right].
        -- intros [H|H]; [by left|]. apply elem_of_cons in H as [[=]|H]. by right.
      * intros d Hd'. destruct (Hdv d Hd') as [[= <-]|Hinit]; right; eauto.
      * done.
    + match goal with |- context [ConfigSource.add_sources environ ?self' rest] =>
        destruct (IH self' Hrest) as (cs & -> & Ht & Hsm & Hd & Hdy & Hss & Hdv & Hsv)
      end.
      simpl in *. exists cs. split; [done|]. split; [done|]. split; [done|].
      split; [rewrite Hd; by destruct (ConfigSource.default_source self)|].
      split; [|split; [|split]].
      * rewrite Hdy. split.
        -- intros [H|H]; [by left|right; by right].
        -- intros [H|H]; [by left|]. apply elem_of_cons in H as [[=]|H]. by right.
      * rewrite Hss. split; [intros _; right; left|intros _; left; eauto].
      * done.
      * intros a Ha. destruct (Hsv a Ha) as [[= <-]|Hinit]; right; done.
Qed.

(** What [ConfigSource(...)] does with its [sources]. With no sources it
    builds the Dynamo client as the default one. With a string it splits at
    the commas and strips the names of their white space, the next-line
    control and the no-break space included; when every name is [Dynamo] or
    [SSM] it
    builds exactly the clients that are named, the first name being the
    default one, and otherwise the assertion on the supported sources fails.
    Sources that are neither empty nor a string raise a [ValueError]. The
    construction at the end of the module succeeds in every environment. *)
Theorem config_source_init_sources :
  ∀ environ test sources config,
    (if ConfigSource.not_sources sources then
       ∃ cs, ConfigSource.init environ test sources config = Ok cs
         ∧ ConfigSource.default_source cs = Some "dynamo_config"
         ∧ is_Some (ConfigSource.dynamo_config cs)
         ∧ ConfigSource.ssm_config cs = None
     else
       match sources with
       | ConfigSource.SourcesStr s =>
           let names := map strip (split "," s) in
           if forallb supported names then
             ∃ cs, ConfigSource.init environ test sources config = Ok cs
               ∧ ConfigSource.default_source cs = attribute_of <$> head names
               ∧ (is_Some (ConfigSource.dynamo_config cs) ↔ "Dynamo" ∈ names)
               ∧ (is_Some (ConfigSource.ssm_config cs) ↔ "SSM" ∈ names)
           else ConfigSource.init environ test sources config = Raise AssertionError
       | _ => ConfigSource.init environ test sources config = Raise ValueError
       end)
    ∧ is_ok (ConfigSource.module_config_source environ) = true.
Proof.
  assert (Hdefault : ∀ environ test sources config,
            ConfigSource.not_sources sources = true →
            ∃ cs, ConfigSource.init environ test sources config = Ok cs
              ∧ ConfigSource.default_source cs = Some "dynamo_config"
              ∧ is_Some (ConfigSource.dynamo_config cs)
              ∧ ConfigSource.ssm_config cs = None).
  { intros environ test sources config Hnot. unfold ConfigSource.init.
    rewrite Hnot. simpl. eexists. split; [reflexivity|]. simpl.
    split; [done|]. split; [eauto|done]. }
  intros environ test sources config. split.
  - destruct (ConfigSource.not_sources sources) eqn:Hnot; [by apply Hdefault|].
    unfold ConfigSource.init. rewrite Hnot.
    destruct sources as [|s|items]; [done| |done].
    simpl. fold supported.
    change (forallb (λ x, bool_decide (x ∈ ConfigSource.SUPPORTED_SOURCES)))
      with (forallb supported).
    destruct (forallb supported (map strip (split "," s))) eqn:Hall; [|done].
    simpl.
    match goal with |- context [ConfigSource.add_sources environ ?self' ?names] =>
      destruct (add_sources_supported environ self' names Hall)
        as (cs & -> & _ & _ & Hd & Hdy & Hss & _)
    end.
    simpl in *. eexists. split; [reflexivity|]. simpl.
    split; [done|]. split.
    + rewrite Hdy. split; [intros [[? [=]]|H]; done|by right].
    + rewrite Hss. split; [intros [[? [=]]|H]; done|by right].
  - unfold ConfigSource.module_config_source.
    destruct (Hdefault environ (stage_is_test environ) ConfigSource.SourcesNone None)
      as (cs & -> & _); done.
Qed.

(** The names are taken as they are written: [SSM] before [Dynamo] makes SSM
    the default one, a no-break space after a name is stripped as a space
    is, a name in lower case or an empty name after a comma fails the
    assertion, and a list raises a [ValueError]. *)
Example config_source_init_examples :
  match ConfigSource.init ∅ false (ConfigSource.SourcesStr " SSM , Dynamo") None with
  | Ok cs => ConfigSource.default_source cs
  | Raise _ => None
  end = Some "ssm_config"
  ∧ match ConfigSource.init ∅ false
            (ConfigSource.SourcesStr
               ("Dynamo" +:+ String (ascii_of_nat 160) EmptyString)) None with
    | Ok cs => ConfigSource.default_source cs
    | Raise _ => None
    end = Some "dynamo_config"
  ∧ ConfigSource.init ∅ false (ConfigSource.SourcesStr "dynamo") None
    = Raise AssertionError
  ∧ ConfigSource.init ∅ false (ConfigSource.SourcesStr "Dynamo,") None
    = Raise AssertionError
  ∧ ConfigSource.init ∅ false (ConfigSource.SourcesList ["SSM"]) None
    = Raise ValueError.
Proof. repeat split; vm_compute; reflexivity. Qed.

Lemma adapter_test_mode environ :
  (if negb (stage_is_test environ) then ambient_test environ
   else stage_is_test environ) = ambient_test environ.
Proof. unfold ambient_test. by destruct (stage_is_test environ). Qed.

(** Every client a [ConfigSource] builds is in test mode exactly when the
    environment has [STAGE] set to [test] or [autotest] set to [True],
    whatever the [test] argument: the Dynamo client, the SSM client and the
    secrets manager of one resolver always agree. *)
Theorem config_source_clients_agree_on_test :
  ∀ environ test sources config,
    match ConfigSource.init environ test sources config with
    | Ok cs =>
        (∀ d, ConfigSource.dynamo_config cs = Some d →
           DynamoConfig.test d = ambient_test environ)
        ∧ (∀ a, ConfigSource.ssm_config cs = Some a →
             SSMConfig.test a = ambient_test environ)
        ∧ SecretsManager.test <$> ConfigSource.secrets_manager_class cs
          = Some (ambient_test environ)
    | Raise _ => True
    end.
Proof.
  intros environ test sources config. unfold ConfigSource.init.
  destruct (if ConfigSource.not_sources sources then _ else _) as [names|e]; [|done].
  change (forallb (λ x, bool_decide (x ∈ ConfigSource.SUPPORTED_SOURCES)))
    with (forallb supported).
  destruct (forallb supported names) eqn:Hall; [|done]. simpl.
  match goal with |- context [ConfigSource.add_sources environ ?self' names] =>
    destruct (add_sources_supported environ self' names Hall)
      as (cs & -> & _ & _ & _ & _ & _ & Hdv & Hsv)
  end.
  simpl in *.
  assert (Htest : (if stage_is_test environ then test || true else false)
                  = stage_is_test environ).
  { destruct (stage_is_test environ); [by destruct test|done]. }
  rewrite Htest in Hdv, Hsv. split; [|split].
  - intros d Hd. destruct (Hdv d Hd) as [[=]|[cfg ->]].
    unfold DynamoConfig.init. simpl. apply adapter_test_mode.
  - intros a Ha. destruct (Hsv a Ha) as [[=]| ->].
    unfold SSMConfig.init. simpl. apply adapter_test_mode.
  - done.
Qed.

(** ** The prefix of a credentials lookup *)

Lemma rev_app_append a b acc :
  String.rev_app (a +:+ b) acc = String.rev_app b (String.rev_app a acc).
Proof.
  revert acc. induction a as [|c a IH]; intros acc; simpl; [done|apply IH].
Qed.

Lemma endswith_normalized prefix : endswith (normalized prefix) "_" = true.
Proof.
  unfold normalized. destruct (endswith prefix "_") eqn:E; [exact E|].
  unfold endswith, String.rev. rewrite rev_app_append. simpl.
  by destruct (String.rev_app prefix EmptyString).
Qed.

Lemma normalized_idempotent prefix : normalized (normalized prefix) = normalized prefix.
Proof. unfold normalized at 1. by rewrite endswith_normalized. Qed.

(** A lookup by a prefix and the lookup by the prefix with the separator
    appended are the same lookup, on both backends: the prefix is
    normalized to end with the separator, once. On the Dynamo backend the
    environment asked for is replaced by [dev] when the client is in test
    mode or the normalized prefix begins with [autotest_]. *)
Theorem credentials_prefix_normalized :
  ∀ json_decode ssm_client tables fuel ssm dynamo prefix env,
    SSMConfig.get_credentials_by_prefix ssm_client fuel ssm (normalized prefix)
    = SSMConfig.get_credentials_by_prefix ssm_client fuel ssm prefix
    ∧ DynamoConfig.get_credentials_by_prefix json_decode tables dynamo
        (normalized prefix) env
      = DynamoConfig.get_credentials_by_prefix json_decode tables dynamo prefix env
    ∧ (endswith prefix "_" = false → normalized prefix = prefix +:+ "_")
    ∧ (DynamoConfig.test dynamo || startswith (normalized prefix) "autotest_" = true →
       DynamoConfig.get_credentials_by_prefix json_decode tables dynamo prefix env
       = DynamoConfig.get_credentials_by_prefix json_decode tables dynamo prefix "dev").
Proof.
  intros json_decode ssm_client tables fuel ssm dynamo prefix env.
  split; [|split; [|split]].
  - unfold SSMConfig.get_credentials_by_prefix. fold (normalized prefix).
    fold (normalized (normalized prefix)). by rewrite normalized_idempotent.
  - unfold DynamoConfig.get_credentials_by_prefix. fold (normalized prefix).
    fold (normalized (normalized prefix)). by rewrite normalized_idempotent.
  - intros H. unfold normalized. by rewrite H.
  - intros H. unfold DynamoConfig.get_credentials_by_prefix.
    fold (normalized prefix). by rewrite H.
Qed.

(** ** The keys of a credentials lookup *)

Lemma prefix_append p s : String.prefix p (p +:+ s) = true.
Proof.
  induction p as [|c p IH]; simpl; [by destruct s|].
  by destruct (ascii_dec c c).
Qed.

Lemma prefix_split p s : String.prefix p s = true → ∃ rest, s = p +:+ rest.
Proof.
  revert s. induction p as [|c p IH]; intros s; simpl.
  - intros _. by exists s.
  - destruct s as [|c' s]; simpl; [discriminate|].
    destruct (ascii_dec c c') as [->|]; [|discriminate].
    intros H. destruct (IH s H) as [rest ->]. by exists rest.
Qed.

Lemma remove_all_from_skip old a s :
  remove_all_from old (String.length a) (a +:+ s) = remove_all_from old 0 s.
Proof. induction a as [|c a IH]; simpl; [done|apply IH]. Qed.

Lemma remove_all_from_here old c s :
  remove_all_from old 0 (String c s)
  = if String.prefix old (String c s) && negb (String.eqb old EmptyString)
    then remove_all_from old (String.length old - 1) s
    else String c (remove_all_from old 0 s).
Proof. reflexivity. Qed.

Lemma remove_all_leading old s :
  old ≠ EmptyString → remove_all old (old +:+ s) = remove_all old s.
Proof.
  intros Hne. unfold remove_all. destruct old as [|c old]; [done|].
  pose proof (prefix_append (String c old) s) as Hp.
  change (String c old +:+ s) with (String c (old +:+ s)) in *.
  rewrite remove_all_from_here, Hp.
  change (String.length (String c old) - 1)%nat with (String.length old - 0)%nat.
  rewrite Nat.sub_0_r. apply remove_all_from_skip.
Qed.

Lemma remove_all_absent old s :
  (∀ a b, s ≠ a +:+ old +:+ b) → remove_all old s = s.
Proof.
  unfold remove_all. induction s as [|c s IH]; intros Habsent; [done|].
  rewrite remove_all_from_here.
  destruct (String.prefix old (String c s)) eqn:Hp.
  - apply prefix_split in Hp as [rest Hrest].
    destruct (Habsent EmptyString rest). exact Hrest.
  - simpl. f_equal. apply IH. intros a b ->.
    apply (Habsent (String c a) b). reflexivity.
Qed.

Lemma normalized_not_empty prefix : normalized prefix ≠ EmptyString.
Proof.
  intros H. pose proof (endswith_normalized prefix) as E. rewrite H in E.
  discriminate E.
Qed.

(** The key a lookup returns for a name is the name with every occurrence
    of the normalized prefix removed, not only the leading one: a name made
    of the prefix and a rest in which the prefix does not occur gives the
    rest, and names that repeat the prefix at their start give the key of
    the name that has it once. *)
Theorem credentials_key_strips_every_prefix :
  ∀ prefix rest,
    remove_all (normalized prefix) (normalized prefix +:+ rest)
    = remove_all (normalized prefix) rest
    ∧ ((∀ a b, rest ≠ a +:+ normalized prefix +:+ b) →
       remove_all (normalized prefix) (normalized prefix +:+ rest) = rest)
    ∧ remove_all (normalized prefix)
        (normalized prefix +:+ normalized prefix +:+ rest)
      = remove_all (normalized prefix) (normalized prefix +:+ rest).
Proof.
  intros prefix rest. pose proof (normalized_not_empty prefix) as Hne.
  split; [by apply remove_all_leading|]. split.
  - intros Habsent. rewrite remove_all_leading by done. by apply remove_all_absent.
  - by rewrite remove_all_leading.
Qed.

Example credentials_keys_collide :
  SSMConfig.credential_item "db_"
    {| SSMConfig.Name := "db_db_host"; SSMConfig.Type_ := "String";
       SSMConfig.Value := "a" |}
  = ("host", PyStr "a")
  ∧ fst (SSMConfig.credential_item "db_"
           {| SSMConfig.Name := "db_main_db_host"; SSMConfig.Type_ := "String";
              SSMConfig.Value := "b" |})
    = "main_host".
Proof. split; vm_compute; reflexivity. Qed.

(** ** Credentials from the secrets manager *)

Lemma get_secret_values_spec client secrets acc d :
  SecretsManager.get_secret_values client secrets acc = Ok d →
  (∀ name v, d !! name = Some v →
     acc !! name = Some v
     ∨ ∃ secret, secret ∈ secrets ∧ SecretsManager.Name secret = name
         ∧ SecretsManager.get_secret_value client (SecretsManager.ARN secret)
           = Ok (Some v))
  ∧ (∀ name, is_Some (acc !! name) → is_Some (d !! name))
  ∧ (∀ secret, secret ∈ secrets → is_Some (d !! SecretsManager.Name secret)).
Proof.
  revert acc. induction secrets as [|secret rest IH]; intros acc; simpl.
  - intros [= ->]. split; [by left|]. split; [done|].
    intros secret H. by apply elem_of_nil in H.
  - destruct (SecretsManager.get_secret_value client (SecretsManager.ARN secret))
      as [[v|]|e] eqn:Hv; [|done|done].
    intros H. destruct (IH _ H) as (Hfrom & Hkeep & Hall). split; [|split].
    + intros name w Hw. destruct (Hfrom name w Hw) as [Hacc|(s & Hs & Hn & Hg)].
      * destruct (decide (SecretsManager.Name secret = name)) as [Heq|Hne].
        -- rewrite <- Heq, lookup_insert_eq in Hacc. injection Hacc as ->.
           right. exists secret. split; [left|done].
        -- rewrite lookup_insert_ne in Hacc by done. by left.
      * right. exists s. split; [by right|done].
    + intros name Hname. apply Hkeep.
      destruct (decide (SecretsManager.Name secret = name)) as [<-|Hne].
      * rewrite lookup_insert_eq. eauto.
      * by rewrite lookup_insert_ne.
    + intros s Hs. apply elem_of_cons in Hs as [->|Hs]; [|by apply Hall].
      apply Hkeep. rewrite lookup_insert_eq. eauto.
Qed.

Lemma valid_types_spec filter_type :
  bool_decide (filter_type ∈ ["tag"; "name"])
  = String.eqb filter_type "tag" || String.eqb filter_type "name".
Proof.
  destruct (String.eqb_spec filter_type "tag") as [->|Htag]; [done|].
  destruct (String.eqb_spec filter_type "name") as [->|Hname]; [done|].
  apply bool_decide_eq_false_2. rewrite !elem_of_cons, elem_of_nil. tauto.
Qed.

(** [get_secrets_credentials] raises a [KeyError] for a type that is not
    [tag] or [name] or for an empty value, whatever the client would answer.
    When it returns, the request was valid, every name it returns is the
    name of a listed secret and maps to the string of that secret, and every
    listed secret has its name in the result. *)
Theorem get_secrets_credentials_outcome :
  ∀ client fuel self filter_type value,
    (valid_secret_request filter_type value = false →
       SecretsManager.get_secrets_credentials client fuel self filter_type value
       = Done (Raise KeyError))
    ∧ ∀ d,
        SecretsManager.get_secrets_credentials client fuel self filter_type value
        = Done (Ok d) →
        ∃ ft v pages,
          filter_type = Some ft ∧ value = Some v
          ∧ valid_secret_request filter_type value = true
          ∧ SecretsManager.call_boto_secrets_with_pagination client fuel
              "list_secrets" (list_secrets_kwargs ft v) = Done (Ok pages)
          ∧ (∀ name s, d !! name = Some s →
               ∃ secret,
                 secret ∈ concat (map SecretsManager.SecretList pages)
                 ∧ SecretsManager.Name secret = name
                 ∧ SecretsManager.get_secret_value client
                     (SecretsManager.ARN secret) = Ok (Some s))
          ∧ (∀ secret, secret ∈ concat (map SecretsManager.SecretList pages) →
               is_Some (d !! SecretsManager.Name secret)).
Proof.
  intros client fuel self filter_type value.
  unfold SecretsManager.get_secrets_credentials, valid_secret_request.
  destruct filter_type as [ft|]; [|split; [done|discriminate]].
  rewrite valid_types_spec.
  destruct (String.eqb_spec ft EmptyString) as [->|Hft]; [split; [done|discriminate]|].
  simpl.
  destruct (String.eqb ft "tag" || String.eqb ft "name") eqn:Hvalid; simpl;
    [|split; [by destruct value|discriminate]].
  destruct value as [v|]; [|split; [done|discriminate]].
  destruct (String.eqb v EmptyString) eqn:Hv; simpl; [split; [done|discriminate]|].
  split; [discriminate|].
  assert (Hkw : {| SecretsManager.Filters :=
                     if String.eqb ft "name"
                     then [ {| SecretsManager.Key := "name";
                               SecretsManager.Values := [v] |} ]
                     else [ {| SecretsManager.Key := "tag-value";
                               SecretsManager.Values := [v] |} ];
                   SecretsManager.token := None |}
                = list_secrets_kwargs ft v).
  { unfold list_secrets_kwargs. by destruct (String.eqb ft "name"). }
  rewrite Hkw. unfold mbind, outcome_bind.
  destruct (SecretsManager.call_boto_secrets_with_pagination client fuel
              "list_secrets" (list_secrets_kwargs ft v))
    as [[pages|e]|] eqn:Hcall; [|discriminate|discriminate].
  intros d Hd. exists ft, v, pages. do 4 (split; [done|]).
  destruct (concat (map SecretsManager.SecretList pages)) as [|secret rest] eqn:Hs.
  - injection Hd as <-. split.
    + intros name s H. by rewrite lookup_empty in H.
    + intros secret H. by apply elem_of_nil in H.
  - injection Hd as Hd.
    destruct (get_secret_values_spec client (secret :: rest) ∅ d Hd)
      as (Hfrom & _ & Hall).
    split; [|done]. intros name s H.
    destruct (Hfrom name s H) as [Hempty|Hsecret]; [by rewrite lookup_empty in Hempty|].
    done.
Qed.

Example get_secrets_credentials_examples :
  SecretsManager.get_secrets_credentials secrets_client 0
    (SecretsManager.init ∅ false) (Some "tag") (Some "payments")
  = Done (Ok {[ "db" := "s3cret"; "api" := "t0ken" ]})
  ∧ SecretsManager.get_secrets_credentials secrets_client 0
      (SecretsManager.init ∅ false) (Some "arn") (Some "payments")
    = Done (Raise KeyError)
  ∧ SecretsManager.get_secrets_credentials secrets_client 0
      (SecretsManager.init ∅ false) (Some "name") None
    = Done (Raise KeyError).
Proof. repeat split; vm_compute; reflexivity. Qed.

(** ** The table of the Dynamo client *)

(** Which table a new Dynamo client reads and writes. [get_config] reads
    [autotest_config] when the environment has a test marker, else
    [autotest_config_component] when the client was built with [test], else
    the custom table or [config]. [update_config] on a new client writes to
    [autotest_config_component] in test mode, markers included, so under a
    test marker a first update goes to another table than the one that is
    read; after a [get_config] the updates go to the table that was read.
    The environment of an update is [dev] in test mode or when [STAGE] is
    [autotest], else [production]. *)
Theorem dynamo_table_routing :
  ∀ json_decode environ tables test config name env val,
    let self := DynamoConfig.init environ test config in
    let read := DynamoConfig.get_config json_decode environ tables self name env in
    let write := DynamoConfig.update_config environ self name val in
    let read_table :=
      if ambient_test environ then "autotest_config"
      else if test then "autotest_config_component"
      else default "config" config in
    DynamoDbClient.table_name <$> DynamoConfig.dynamo_client read.2 = Some read_table
    ∧ DynamoConfig.update_table write.1
      = (if test || ambient_test environ then "autotest_config_component"
         else default "config" config)
    ∧ DynamoConfig.update_table (DynamoConfig.update_config environ read.2 name val).1
      = read_table
    ∧ DynamoConfig.update_env write.1
      = (if test || ambient_test environ
            || bool_decide (environ !! "STAGE" = Some "autotest")
         then "dev" else "production").
Proof.
  intros json_decode environ tables test config name env val.
  unfold DynamoConfig.get_config, DynamoConfig.update_config,
    DynamoConfig._get_dynamo_client, DynamoConfig.init, ambient_test, stage_is_test.
  simpl.
  destruct test; simpl;
    destruct (bool_decide (environ !! "STAGE" = Some "test")); simpl;
    destruct (bool_decide (environ !! "autotest" = Some "True")); simpl;
    destruct (bool_decide (environ !! "STAGE" = Some "autotest")); simpl;
    done.
Qed.

(** ** Update and read *)

Lemma filter_none {A} (f : A → bool) (l : list A) :
  existsb f l = false → List.filter f l = [].
Proof.
  induction l as [|a l IH]; simpl; [done|].
  destruct (f a); simpl; [discriminate|exact IH].
Qed.

Lemma upsert_head (matches : DynamoDbClient.Row → bool)
    (set : DynamoDbClient.Row → DynamoDbClient.Row) val rows :
  (∀ row, matches row = true →
     matches (set row) = true ∧ DynamoDbClient.config_value (set row) = val) →
  existsb matches rows = true →
  DynamoDbClient.config_value
    <$> head (List.filter matches
                (map (λ row, if matches row then set row else row) rows))
  = Some val.
Proof.
  intros Hset. induction rows as [|row rows IH]; [discriminate|].
  cbn [existsb map]. destruct (matches row) eqn:Hrow.
  - intros _. destruct (Hset row Hrow) as [Hm Hv].
    cbn [List.filter]. rewrite Hm. simpl. by rewrite Hv.
  - simpl. rewrite Hrow. exact IH.
Qed.

Lemma update_then_query tables table env name val :
  DynamoDbClient.config_value
    <$> head (DynamoDbClient.get_by_query
                (DynamoDbClient.update tables table env name val)
                {| DynamoDbClient.table_name := table |} env name false)
  = Some val.
Proof.
  unfold DynamoDbClient.get_by_query, DynamoDbClient.update.
  cbn [DynamoDbClient.table_name]. rewrite String.eqb_refl.
  destruct (existsb _ (tables table)) eqn:Hex.
  - apply (upsert_head
             (λ row, String.eqb (DynamoDbClient.env row) env
                     && String.eqb (DynamoDbClient.config_name row) name)
             (λ row, {| DynamoDbClient.env := DynamoDbClient.env row;
                        DynamoDbClient.config_name := DynamoDbClient.config_name row;
                        DynamoDbClient.config_value := val |})); [|exact Hex].
    intros row Hrow. simpl. by split.
  - rewrite List.filter_app, (filter_none _ _ Hex). simpl.
    by rewrite !String.eqb_refl.
Qed.

(** With the update of the table taken as the upsert the spec describes, a
    value written by [update_config] is the value [get_config] reads back
    under the environment the update chose, decoded when it is JSON and as
    text when it is not, provided the read is not redirected to another
    table: the environment has no test marker, or the client already names
    [autotest_config]. *)
Theorem dynamo_update_then_get :
  ∀ json_decode environ tables self name val,
    let write := DynamoConfig.update_config environ self name val in
    let tables' :=
      DynamoDbClient.update tables (DynamoConfig.update_table write.1)
        (DynamoConfig.update_env write.1) name val in
    ambient_test environ = false
    ∨ DynamoConfig.update_table write.1 = "autotest_config" →
    (DynamoConfig.get_config json_decode environ tables' write.2 name
       (DynamoConfig.update_env write.1)).1
    = Ok (match json_decode val with
          | Some v => v
          | None => PyStr val
          end).
Proof.
  intros json_decode environ tables self name val write tables' Hsame.
  subst write tables'. unfold DynamoConfig.update_config in *.
  destruct (DynamoConfig._get_dynamo_client self) as [client self1] eqn:Hclient.
  simpl in *.
  assert (Hagain : DynamoConfig._get_dynamo_client self1 = (client, self1)).
  { unfold DynamoConfig._get_dynamo_client in *.
    destruct (DynamoConfig.dynamo_client self) as [c|] eqn:Hc.
    - injection Hclient as <- <-. by rewrite Hc.
    - injection Hclient as <- <-. done. }
  unfold DynamoConfig.get_config. rewrite Hagain.
  assert (Hread : (if ambient_test environ
                   then {| DynamoDbClient.table_name := "autotest_config" |}
                   else client)
                  = {| DynamoDbClient.table_name := DynamoDbClient.table_name client |}).
  { destruct Hsame as [->|Htable]; [by destruct client|].
    destruct (ambient_test environ); [by rewrite Htable|by destruct client]. }
  rewrite Hread. simpl. rewrite update_then_query. simpl.
  by destruct (json_decode val).
Qed.

Lemma dynamo_update_then_get_witness :
  (DynamoConfig.get_config json_scalar ∅
     (DynamoDbClient.update dynamo_tables "config" "production" "limits" "43")
     (DynamoConfig.update_config ∅ dynamo_adapter "limits" "43").2
     "limits" "production").1
  = Ok (PyInt 43).
Proof.
  exact (dynamo_update_then_get json_scalar ∅ dynamo_tables dynamo_adapter
           "limits" "43" (or_introl eq_refl)).
Defined.
